(** * The multi-agent pipeline of [main.py]: revision loop, response parsing
      and result aggregation

    A shallow embedding of [MultiAgentFramework] (src/main.py).  The hosted
    model, the chat library and Python's [json] module are external: they
    enter as an interface ([Externals]) over an abstract world type, and all
    theorems hold for every implementation of that interface.  The methods
    of the class are computations in a state-and-exception monad over the
    orchestrator instance. *)

From Stdlib Require Import ZArith Lia Ascii String.
From stdpp Require Import base option list strings pretty gmap fin_maps.

Local Open Scope string_scope.
Local Open Scope Z_scope.

#[local] Set Warnings "-register-all,-clear-no-such-hyp".

(** ** Values exchanged with the agents *)

(** What [json.loads] produces and [json.dumps] consumes.  A Python [dict] is
    kept as its item list in insertion order; a float keeps its lexeme, no
    arithmetic is ever done on it. *)
Inductive json : Type :=
  | JNull
  | JBool (b : bool)
  | JInt (z : Z)
  | JFloat (lexeme : string)
  | JStr (s : string)
  | JArr (items : list json)
  | JObj (members : list (string * json)).

(** [d.get(key)]: the value bound to [key], [None] when absent. *)
Fixpoint dict_get (key : string) (members : list (string * json)) : option json :=
  match members with
  | [] => None
  | (k, v) :: rest => if String.eqb k key then Some v else dict_get key rest
  end.

(** The exceptions that can travel through the methods. *)
Inductive exn : Type :=
  | KeyError
  | IndexError
  | AttributeError
  | UnboundLocalError
  | JSONDecodeError
  | OtherError (name : string).

(** Result of running a piece of code: a value, a raised exception, or the
    recursion budget of the model of a [while] loop running out. *)
Inductive outcome (A : Type) : Type :=
  | Return (a : A)
  | Raise (e : exn)
  | OutOfFuel.
Arguments Return {A} a.
Arguments Raise {A} e.
Arguments OutOfFuel {A}.

(** ** The pattern [re.search(r'\{.*\}', text, re.DOTALL)]

    A backtracking matcher for this one pattern.  With DOTALL the dot takes
    every character.  Text is a [string] of bytes; the two braces are ASCII
    and no multi-byte UTF-8 sequence contains them, so spans of bytes and
    spans of code points coincide. *)

Definition open_brace : ascii := "{"%char.
Definition close_brace : ascii := "}"%char.

(** [.*\}] at the head of [s]: the star is greedy, so it keeps the next
    character whenever the rest of the pattern still matches further on, and
    gives characters back until a closing brace follows. *)
Fixpoint match_dotstar_close (s : string) : option string :=
  match s with
  | EmptyString => None
  | String c rest =>
      match match_dotstar_close rest with
      | Some m => Some (String c m)
      | None => if Ascii.eqb c close_brace then Some (String c EmptyString) else None
      end
  end.

(** The whole pattern anchored at the head of [s]. *)
Definition match_here (s : string) : option string :=
  match s with
  | String c rest =>
      if Ascii.eqb c open_brace
      then String c <$> match_dotstar_close rest
      else None
  | EmptyString => None
  end.

(** [re.search]: the match at the leftmost position that has one; the result
    is [json_match.group()], [None] when [json_match] is [None]. *)
Fixpoint re_search (text : string) : option string :=
  match match_here text with
  | Some m => Some m
  | None =>
      match text with
      | EmptyString => None
      | String _ rest => re_search rest
      end
  end.

(** Occurrence of a character in a text. *)
Fixpoint occurs (c : ascii) (s : string) : bool :=
  match s with
  | EmptyString => false
  | String d rest => Ascii.eqb d c || occurs c rest
  end.

(** ** External collaborators *)

(** The six roles; each is an [AssistantAgent] bound to a fixed prompt. *)
Inductive agent : Type :=
  | RequirementAnalyst
  | SoftwareDeveloper
  | CodeReviewer
  | TechnicalWriter
  | QAEngineer
  | DevOpsEngineer.

#[global] Instance agent_eq_dec : EqDecision agent.
Proof. solve_decision. Defined.

(** What a call into a library gives back: a value or an exception. *)
Inductive result (A : Type) : Type :=
  | Ok (a : A)
  | Err (e : exn).
Arguments Ok {A} a.
Arguments Err {A} e.

(** Everything the class calls but does not define.  [World] is the state of
    the user proxy together with the hosted model and the clock.
    - [initiate_chat a message max_turns]: [user_proxy.initiate_chat]; it
      blocks until the exchange is over, may raise, and changes the world
      either way;
    - [chat_messages w a]: [user_proxy.chat_messages[a]], the contents of
      the recorded messages, [None] when the key is absent;
    - [json_loads], [json_dumps indent]: Python's [json] module;
    - [now_isoformat]: [datetime.now().isoformat()]. *)
Class Externals (World : Type) : Type := {
  initiate_chat : agent → string → Z → World → result unit * World;
  chat_messages : World → agent → option (list string);
  json_loads : string → result json;
  json_dumps : option Z → json → string;
  now_isoformat : World → string
}.

(** ** The orchestrator instance and its monad *)

(** One call of [initiate_chat], as an observer would note it down: the
    agent addressed, the message sent, and the world the call left behind.
    The reply is the last message of the conversation with that agent. *)
Record exchange (World : Type) : Type := {
  target : agent;
  message : string;
  after : World
}.
Arguments target {World} _.
Arguments message {World} _.
Arguments after {World} _.

(** The instance: the user proxy (with the world behind it) and
    [self.results].  [invocations] is a ghost field: it lists every
    [initiate_chat] call made so far, most recent first; no method reads
    it. *)
Record Framework (World : Type) : Type := {
  user_proxy : World;
  results : gmap string json;
  invocations : list (exchange World)
}.
Arguments user_proxy {World} _.
Arguments results {World} _.
Arguments invocations {World} _.

(** A method body: it runs on the instance, mutates it, and returns, raises
    or exhausts the loop budget.  Mutations made before a raise stay. *)
Definition M (World : Type) (A : Type) : Type :=
  Framework World → outcome A * Framework World.

#[global] Instance M_ret {World} : MRet (M World) :=
  λ A a st, (Return a, st).

#[global] Instance M_bind {World} : MBind (M World) :=
  λ A B f m st,
    match m st with
    | (Return a, st') => f a st'
    | (Raise e, st') => (Raise e, st')
    | (OutOfFuel, st') => (OutOfFuel, st')
    end.

Definition raise {World A} (e : exn) : M World A :=
  λ st, (Raise e, st).

Definition out_of_fuel {World A} : M World A :=
  λ st, (OutOfFuel, st).

(** A library call that touches no state. *)
Definition lift {World A} (r : result A) : M World A :=
  match r with
  | Ok a => mret a
  | Err e => raise e
  end.

(** [try: body / except Exception as e: handler e]. *)
Definition try_catch {World A} (body : M World A) (handler : exn → M World A)
  : M World A :=
  λ st,
    match body st with
    | (Raise e, st') => handler e st'
    | other => other
    end.

(** The same for code that has no access to the instance; the bare
    [except:] of the parse blocks discards the exception. *)
Definition try_except {A} (body : result A) (handler : result A) : result A :=
  match body with
  | Ok a => Ok a
  | Err _ => handler
  end.

(** How many calls in a log went to a given agent. *)
Definition calls_to {World} (a : agent) (log : list (exchange World)) : nat :=
  length (filter (λ x, target x = a) log).

(** Python's [len(v) > 0] for the sized values; [None] counts as empty and
    numbers and booleans, which have no size, as present. *)
Definition nonempty (v : json) : bool :=
  match v with
  | JNull => false
  | JStr s => negb (String.eqb s "")
  | JArr items => match items with [] => false | _ => true end
  | JObj members => match members with [] => false | _ => true end
  | _ => true
  end.

(** ** The methods of [MultiAgentFramework] *)

Definition nl : string := String (ascii_of_nat 10) EmptyString.

(** The message templates (the f-strings of the methods). *)
Definition analyze_message (requirement : string) : string :=
  "Analyze this requirement and provide structured output:" +:+ nl +:+
  requirement +:+ nl +:+ nl +:+
  "IMPORTANT: Provide ONLY the JSON output, no code blocks or explanations.".

Definition generate_message (req_text : string) : string :=
  "Generate Python code for these requirements:" +:+ nl +:+
  req_text +:+ nl +:+ nl +:+
  "IMPORTANT: Provide ONLY the code, no markdown formatting or explanations before/after.".

Definition review_message (current_code : string) : string :=
  "Review this code:" +:+ nl +:+ current_code +:+ nl +:+ nl +:+
  "IMPORTANT: Provide ONLY the JSON review, no explanations.".

Definition improve_message (review_text current_code : string) : string :=
  "Improve this code based on review:" +:+ nl +:+ review_text +:+ nl +:+ nl +:+
  "Original code:" +:+ nl +:+ current_code +:+ nl +:+ nl +:+
  "IMPORTANT: Provide ONLY the improved code.".

Definition documentation_message (code : string) : string :=
  "Create documentation for this code:" +:+ nl +:+ code +:+ nl +:+ nl +:+
  "IMPORTANT: Provide documentation in Markdown format.".

Definition tests_message (code : string) : string :=
  "Generate comprehensive tests for this code:" +:+ nl +:+ code +:+ nl +:+ nl +:+
  "IMPORTANT: Provide ONLY the test code.".

Definition deployment_message (code req_text : string) : string :=
  "Create deployment configuration for this project:" +:+ nl +:+
  "Code:" +:+ nl +:+ code +:+ nl +:+
  "Requirements:" +:+ nl +:+ req_text +:+ nl +:+ nl +:+
  "IMPORTANT: Provide deployment script and requirements.txt.".

(** The two fallback values of the parse blocks. *)
Definition fallback_verdict : json :=
  JObj [("status", JStr "approved"); ("score", JInt 8)].

Definition fallback_requirements (requirement : string) : json :=
  JObj [("title", JStr "Software Project");
        ("description", JStr requirement);
        ("features", JArr [JStr "Core functionality"]);
        ("constraints", JArr [JStr "Python implementation"]);
        ("edge_cases", JArr [])].

(** [v.get(key)]: only a [dict] has the method. *)
Definition py_get (v : json) (key : string) : result (option json) :=
  match v with
  | JObj members => Ok (dict_get key members)
  | _ => Err AttributeError
  end.

(** [x == 'approved'] for [x] the result of a [.get]. *)
Definition is_approved (x : option json) : bool :=
  match x with
  | Some (JStr s) => String.eqb s "approved"
  | _ => false
  end.

(** The keys of [self.results] that [process_requirement] writes. *)
Definition pipeline_keys : gset string :=
  {[ "requirements"; "code"; "review"; "final_code";
     "documentation"; "tests"; "deployment" ]}.

Section Methods.
Context {World : Type} `{Ext : Externals World}.

(** [self.user_proxy.initiate_chat(a, message=..., max_turns=...)]; the
    instance after the call is [after_call]. *)
Definition after_call (st : Framework World) (a : agent) (msg : string)
    (w : World) : Framework World :=
  {| user_proxy := w;
     results := results st;
     invocations :=
       {| target := a; message := msg; after := w |} :: invocations st |}.

Definition chat (a : agent) (msg : string) (max_turns : Z) : M World unit :=
  λ st,
    let '(r, w) := initiate_chat a msg max_turns (user_proxy st) in
    match r with
    | Ok _ => (Return (), after_call st a msg w)
    | Err e => (Raise e, after_call st a msg w)
    end.

(** The reply recorded by an exchange. *)
Definition response (x : exchange World) : option string :=
  chat_messages (after x) (target x) ≫= last.

(** [messages = self.user_proxy.chat_messages[a]] followed by
    [messages[-1]['content']]. *)
Definition last_content (a : agent) : M World string :=
  λ st,
    match chat_messages (user_proxy st) a with
    | None => (Raise KeyError, st)
    | Some messages =>
        match last messages with
        | None => (Raise IndexError, st)
        | Some content => (Return content, st)
        end
    end.

(** [self.results[key] = v]. *)
Definition stored (key : string) (v : json) (st : Framework World)
  : Framework World :=
  {| user_proxy := user_proxy st;
     results := <[key := v]> (results st);
     invocations := invocations st |}.

Definition set_result (key : string) (v : json) : M World unit :=
  λ st, (Return (), stored key v st).

(** [self.results], the mapping object itself. *)
Definition get_results : M World (gmap string json) :=
  λ st, (Return (results st), st).

(** [datetime.now().isoformat()]. *)
Definition now : M World string :=
  λ st, (Return (now_isoformat (user_proxy st)), st).

(** The parse block that [_analyze_requirements] (lines 265-281) and
    [_review_code] (lines 311-320) both spell out, each with its own
    fallback: search the text for the brace span, decode the span, and take
    the fallback when there is no span or when anything in the [try]
    raises. *)
Definition extract_structured (text : string) (fallback : json) : result json :=
  try_except
    (match re_search text with
     | Some span => json_loads span
     | None => Ok fallback
     end)
    (Ok fallback).

Definition _analyze_requirements (requirement : string) : M World json :=
  chat RequirementAnalyst (analyze_message requirement) 2;;
  last_message ← last_content RequirementAnalyst;
  lift (extract_structured last_message (fallback_requirements requirement)).

Definition _generate_code (requirements : json) : M World string :=
  let req_text := json_dumps (Some 2) requirements in
  chat SoftwareDeveloper (generate_message req_text) 1;;
  last_content SoftwareDeveloper.

(** The [while] loop of [_review_code] from one test of its condition on.
    [review_result] is [None] while the local variable is unbound.  Every
    pass through the body uses one unit of [fuel]. *)
Fixpoint review_loop (fuel : nat) (max_iterations : Z) (current_code : string)
    (iteration : Z) (review_result : option json) : M World (json * string) :=
  if iteration <? max_iterations then
    match fuel with
    | O => out_of_fuel
    | S fuel' =>
        chat CodeReviewer (review_message current_code) 1;;
        review_text ← last_content CodeReviewer;
        review_result' ← lift (extract_structured review_text fallback_verdict);
        status ← lift (py_get review_result' "status");
        if is_approved status then
          mret (review_result', current_code)
        else
          current_code' ←
            (if iteration <? max_iterations - 1 then
               chat SoftwareDeveloper (improve_message review_text current_code) 1;;
               last_content SoftwareDeveloper
             else mret current_code);
          review_loop fuel' max_iterations current_code' (iteration + 1)
            (Some review_result')
    end
  else
    match review_result with
    | Some r => mret (r, current_code)
    | None => raise UnboundLocalError
    end.

(** [_review_code]: the loop entered with [iteration = 0] and
    [review_result] unbound.  The body runs at most [max_iterations] times,
    so that many passes are budget enough; the properties below include
    that the budget is never exhausted. *)
Definition _review_code (code : string) (requirements : json)
    (max_iterations : Z) : M World (json * string) :=
  review_loop (Z.to_nat max_iterations) max_iterations code 0 None.

Definition _generate_documentation (code : string) (requirements : json)
  : M World string :=
  chat TechnicalWriter (documentation_message code) 1;;
  last_content TechnicalWriter.

Definition _generate_tests (code : string) (requirements : json) : M World string :=
  chat QAEngineer (tests_message code) 1;;
  last_content QAEngineer.

Definition _generate_deployment (code : string) (requirements : json)
  : M World json :=
  chat DevOpsEngineer (deployment_message code (json_dumps None requirements)) 1;;
  script ← last_content DevOpsEngineer;
  timestamp ← now;
  mret (JObj [("script", JStr script); ("timestamp", JStr timestamp)]).

(** The six stages in order, each output stored as soon as the stage
    returns.  [_review_code] runs with its default budget of 3.  The
    handler logs and re-raises; logging has no effect on the instance. *)
Definition process_requirement (requirement : string) : M World (gmap string json) :=
  try_catch
    (req_result ← _analyze_requirements requirement;
     set_result "requirements" req_result;;
     code_result ← _generate_code req_result;
     set_result "code" (JStr code_result);;
     '(review_result, final_code) ← _review_code code_result req_result 3;
     set_result "review" review_result;;
     set_result "final_code" (JStr final_code);;
     doc_result ← _generate_documentation final_code req_result;
     set_result "documentation" (JStr doc_result);;
     test_result ← _generate_tests final_code req_result;
     set_result "tests" (JStr test_result);;
     deploy_result ← _generate_deployment final_code req_result;
     set_result "deployment" deploy_result;;
     get_results)
    (λ e, raise e).

End Methods.

(** ** Vocabulary of the statements *)

Section Vocabulary.
Context {World : Type} `{Ext : Externals World}.

(** The invocation of [a] with [msg] in world [w] succeeds: the call returns,
    leaves the world [w'], and the reply found there is [text]. *)
Definition responds (a : agent) (msg : string) (max_turns : Z) (w : World)
    (text : string) (w' : World) : Prop :=
  initiate_chat a msg max_turns w = (Ok (), w')
  ∧ chat_messages w' a ≫= last = Some text.

(** The calls a run added to the log of [st], most recent first. *)
Definition added_calls (st st' : Framework World)
    (calls : list (exchange World)) : Prop :=
  invocations st' = (calls ++ invocations st)%list.

(** How [process_requirement] can fail: one constructor per stage.  Each
    lists the stages that returned before, the state each was started in
    (the output of the stage before it already stored), the failing stage
    with the exception and the instance it left, and what [self.results]
    holds in that instance. *)
Inductive aborted (requirement : string) (st : Framework World) (e : exn)
    (st_fail : Framework World) : Prop :=
  | aborted_in_analysis :
      _analyze_requirements requirement st = (Raise e, st_fail) →
      results st_fail = results st →
      aborted requirement st e st_fail
  | aborted_in_generation req s1 :
      _analyze_requirements requirement st = (Return req, s1) →
      _generate_code req (stored "requirements" req s1) = (Raise e, st_fail) →
      results st_fail = <["requirements" := req]> (results st) →
      aborted requirement st e st_fail
  | aborted_in_review req s1 code s2 :
      _analyze_requirements requirement st = (Return req, s1) →
      _generate_code req (stored "requirements" req s1) = (Return code, s2) →
      _review_code code req 3 (stored "code" (JStr code) s2)
      = (Raise e, st_fail) →
      results st_fail
      = <["code" := JStr code]> (<["requirements" := req]> (results st)) →
      aborted requirement st e st_fail
  | aborted_in_documentation req s1 code s2 review final s3 :
      _analyze_requirements requirement st = (Return req, s1) →
      _generate_code req (stored "requirements" req s1) = (Return code, s2) →
      _review_code code req 3 (stored "code" (JStr code) s2)
      = (Return (review, final), s3) →
      _generate_documentation final req
        (stored "final_code" (JStr final) (stored "review" review s3))
      = (Raise e, st_fail) →
      results st_fail
      = <["final_code" := JStr final]> (<["review" := review]>
          (<["code" := JStr code]> (<["requirements" := req]> (results st)))) →
      aborted requirement st e st_fail
  | aborted_in_tests req s1 code s2 review final s3 doc s4 :
      _analyze_requirements requirement st = (Return req, s1) →
      _generate_code req (stored "requirements" req s1) = (Return code, s2) →
      _review_code code req 3 (stored "code" (JStr code) s2)
      = (Return (review, final), s3) →
      _generate_documentation final req
        (stored "final_code" (JStr final) (stored "review" review s3))
      = (Return doc, s4) →
      _generate_tests final req (stored "documentation" (JStr doc) s4)
      = (Raise e, st_fail) →
      results st_fail
      = <["documentation" := JStr doc]> (<["final_code" := JStr final]>
          (<["review" := review]> (<["code" := JStr code]>
             (<["requirements" := req]> (results st))))) →
      aborted requirement st e st_fail
  | aborted_in_deployment req s1 code s2 review final s3 doc s4 tests s5 :
      _analyze_requirements requirement st = (Return req, s1) →
      _generate_code req (stored "requirements" req s1) = (Return code, s2) →
      _review_code code req 3 (stored "code" (JStr code) s2)
      = (Return (review, final), s3) →
      _generate_documentation final req
        (stored "final_code" (JStr final) (stored "review" review s3))
      = (Return doc, s4) →
      _generate_tests final req (stored "documentation" (JStr doc) s4)
      = (Return tests, s5) →
      _generate_deployment final req (stored "tests" (JStr tests) s5)
      = (Raise e, st_fail) →
      results st_fail
      = <["tests" := JStr tests]> (<["documentation" := JStr doc]>
          (<["final_code" := JStr final]> (<["review" := review]>
             (<["code" := JStr code]>
                (<["requirements" := req]> (results st)))))) →
      aborted requirement st e st_fail.

End Vocabulary.

(** ** A concrete implementation of the externals

    Used to run the methods on concrete conversations: a codec for the JSON
    subset the scenarios need (objects, arrays, strings without escapes,
    integers, the three literals) and agents that answer from a script. *)
Module Scenario.

Definition quote : ascii := ascii_of_nat 34.

Definition quoted (s : string) : string :=
  String quote (s +:+ String quote EmptyString).

Definition is_space (c : ascii) : bool :=
  Ascii.eqb c " "%char || Ascii.eqb c (ascii_of_nat 10)
  || Ascii.eqb c (ascii_of_nat 9) || Ascii.eqb c (ascii_of_nat 13).

Fixpoint skip_ws (s : string) : string :=
  match s with
  | String c rest => if is_space c then skip_ws rest else s
  | EmptyString => s
  end.

(** The characters of a string literal after its opening quote, and the text
    after its closing quote. *)
Fixpoint read_string (s : string) : option (string * string) :=
  match s with
  | EmptyString => None
  | String c rest =>
      if Ascii.eqb c quote then Some (EmptyString, rest)
      else if Ascii.eqb c "\"%char then None
      else '(t, rest') ← read_string rest; Some (String c t, rest')
  end.

Definition digit_value (c : ascii) : option Z :=
  let n := Z.of_nat (nat_of_ascii c) in
  if (48 <=? n) && (n <=? 57) then Some (n - 48) else None.

Fixpoint read_digits (acc : Z) (s : string) : Z * string :=
  match s with
  | String c rest =>
      match digit_value c with
      | Some d => read_digits (10 * acc + d) rest
      | None => (acc, s)
      end
  | EmptyString => (acc, s)
  end.

Definition read_int (s : string) : option (Z * string) :=
  match s with
  | String c rest =>
      if Ascii.eqb c "-"%char then
        match rest with
        | String d _ =>
            match digit_value d with
            | Some _ => let '(n, rest') := read_digits 0 rest in Some (- n, rest')
            | None => None
            end
        | EmptyString => None
        end
      else
        match digit_value c with
        | Some _ => Some (read_digits 0 s)
        | None => None
        end
  | EmptyString => None
  end.

(** [strip_prefix p s]: [s] without its prefix [p]. *)
Fixpoint strip_prefix (p s : string) : option string :=
  match p, s with
  | EmptyString, _ => Some s
  | String a p', String b s' => if Ascii.eqb a b then strip_prefix p' s' else None
  | _, _ => None
  end.

(** One value at the head of [s] (after white space) and the rest of the
    text; [parse_members] and [parse_items] read what follows an opening
    brace or bracket that is not closed at once. *)
Fixpoint parse_value (fuel : nat) (s : string) : option (json * string) :=
  match fuel with
  | O => None
  | S fuel' =>
      match skip_ws s with
      | EmptyString => None
      | String c rest as s1 =>
          if Ascii.eqb c open_brace then
            match skip_ws rest with
            | String d rest' as r1 =>
                if Ascii.eqb d close_brace then Some (JObj [], rest')
                else '(ms, r2) ← parse_members fuel' r1; Some (JObj ms, r2)
            | EmptyString => None
            end
          else if Ascii.eqb c "["%char then
            match skip_ws rest with
            | String d rest' as r1 =>
                if Ascii.eqb d "]"%char then Some (JArr [], rest')
                else '(vs, r2) ← parse_items fuel' r1; Some (JArr vs, r2)
            | EmptyString => None
            end
          else if Ascii.eqb c quote then
            '(t, r) ← read_string rest; Some (JStr t, r)
          else
            match strip_prefix "true" s1, strip_prefix "false" s1,
                  strip_prefix "null" s1 with
            | Some r, _, _ => Some (JBool true, r)
            | _, Some r, _ => Some (JBool false, r)
            | _, _, Some r => Some (JNull, r)
            | _, _, _ => '(n, r) ← read_int s1; Some (JInt n, r)
            end
      end
  end
with parse_members (fuel : nat) (s : string)
  : option (list (string * json) * string) :=
  match fuel with
  | O => None
  | S fuel' =>
      match skip_ws s with
      | String c rest =>
          if Ascii.eqb c quote then
            '(k, r1) ← read_string rest;
            match skip_ws r1 with
            | String colon r2 =>
                if Ascii.eqb colon ":"%char then
                  '(v, r3) ← parse_value fuel' r2;
                  match skip_ws r3 with
                  | String d r4 =>
                      if Ascii.eqb d close_brace then Some ([(k, v)], r4)
                      else if Ascii.eqb d ","%char then
                        '(ms, r5) ← parse_members fuel' r4;
                        Some ((k, v) :: ms, r5)
                      else None
                  | EmptyString => None
                  end
                else None
            | EmptyString => None
            end
          else None
      | EmptyString => None
      end
  end
with parse_items (fuel : nat) (s : string) : option (list json * string) :=
  match fuel with
  | O => None
  | S fuel' =>
      '(v, r1) ← parse_value fuel' s;
      match skip_ws r1 with
      | String d r2 =>
          if Ascii.eqb d "]"%char then Some ([v], r2)
          else if Ascii.eqb d ","%char then
            '(vs, r3) ← parse_items fuel' r2; Some (v :: vs, r3)
          else None
      | EmptyString => None
      end
  end.

(** A later binding of a key replaces the earlier one, as in a [dict]. *)
Fixpoint dict_of_members (ms : list (string * json)) : list (string * json) :=
  match ms with
  | [] => []
  | (k, v) :: rest =>
      let d := dict_of_members rest in
      match dict_get k d with
      | Some _ => d
      | None => (k, v) :: d
      end
  end.

Fixpoint normalize (fuel : nat) (v : json) : json :=
  match fuel with
  | O => v
  | S fuel' =>
      match v with
      | JArr items => JArr (normalize fuel' <$> items)
      | JObj ms => JObj (dict_of_members (prod_map id (normalize fuel') <$> ms))
      | _ => v
      end
  end.

(** The decoder: one value, nothing but white space after it. *)
Definition loads (s : string) : result json :=
  match parse_value (String.length s) s with
  | Some (v, rest) =>
      match skip_ws rest with
      | EmptyString => Ok (normalize (String.length s) v)
      | _ => Err JSONDecodeError
      end
  | None => Err JSONDecodeError
  end.

(** The encoder, in the layout [json.dumps] uses without [indent]. *)
Fixpoint dumps_value (fuel : nat) (v : json) : string :=
  match v with
  | JNull => "null"
  | JBool true => "true"
  | JBool false => "false"
  | JInt z => pretty z
  | JFloat lexeme => lexeme
  | JStr s => quoted s
  | JArr items =>
      match fuel with
      | O => "[]"
      | S fuel' => "[" +:+ String.concat ", " (dumps_value fuel' <$> items) +:+ "]"
      end
  | JObj ms =>
      match fuel with
      | O => "{}"
      | S fuel' =>
          "{" +:+ String.concat ", "
                    ((λ kv, quoted kv.1 +:+ ": " +:+ dumps_value fuel' kv.2) <$> ms)
          +:+ "}"
      end
  end.

(** The scenarios do not depend on the indentation of the requirement text
    they send, so one layout serves both uses. *)
Definition dumps (indent : option Z) (v : json) : string :=
  dumps_value 64 v.

(** Agents that answer from a script: [script a] holds the replies [a] has
    still to give; a call to an agent whose script is over fails.  As in the
    chat library, the request and the reply are both appended to the
    conversation with the agent. *)
Record world : Type := {
  script : agent → list string;
  conversations : agent → option (list string);
  clock : string
}.

Definition update {A} (f : agent → A) (a : agent) (x : A) : agent → A :=
  λ b, if decide (b = a) then x else f b.

Definition scripted_chat (a : agent) (msg : string) (max_turns : Z)
    (w : world) : result unit * world :=
  match script w a with
  | [] => (Err (OtherError "TransportError"), w)
  | reply :: rest =>
      (Ok (),
       {| script := update (script w) a rest;
          conversations :=
            update (conversations w) a
              (Some (app (default [] (conversations w a)) [msg; reply]));
          clock := clock w |})
  end.

#[global] Instance scripted : Externals world := {
  initiate_chat := scripted_chat;
  chat_messages := conversations;
  json_loads := loads;
  json_dumps := dumps;
  now_isoformat := clock
}.

(** A freshly constructed framework in front of scripted agents:
    [self.results = {}] and no conversation yet. *)
Definition fresh (scr : agent → list string) : Framework world :=
  {| user_proxy := {| script := scr;
                      conversations := λ _, None;
                      clock := "2024-01-01T00:00:00" |};
     results := ∅;
     invocations := [] |}.

(** The framework behind a patched [initiate_chat], as the unit tests set it
    up: the call does nothing and [chat_messages] holds one fixed reply per
    agent. *)
Definition canned (replies : agent → string) : Externals unit := {|
  initiate_chat := λ _ _ _ w, (Ok (), w);
  chat_messages := λ _ a, Some [replies a];
  json_loads := loads;
  json_dumps := dumps;
  now_isoformat := λ _, "2024-01-01T00:00:00"
|}.

Definition patched : Framework unit :=
  {| user_proxy := (); results := ∅; invocations := [] |}.

(** Replies used in the scenarios. *)
Definition approved_review : string :=
  dumps None (JObj [("status", JStr "approved"); ("score", JInt 9)]).

Definition rejecting_review : string :=
  dumps None (JObj [("status", JStr "needs_revision"); ("score", JInt 5)]).

Definition calculator_analysis : string :=
  dumps None (JObj [("title", JStr "Calculator");
                    ("features", JArr [JStr "add"; JStr "subtract"])]).

(** The calculator run: every agent answers once, the Reviewer approves. *)
Definition calculator (a : agent) : list string :=
  match a with
  | RequirementAnalyst => [calculator_analysis]
  | SoftwareDeveloper => ["def add(a,b): return a+b"]
  | CodeReviewer => [approved_review]
  | TechnicalWriter => ["# Calculator Documentation"]
  | QAEngineer => ["def test_add(): assert add(1, 2) == 3"]
  | DevOpsEngineer => ["#!/bin/bash"]
  end.

(** The same run with an Analyst that answers with the empty object. *)
Definition empty_analysis (a : agent) : list string :=
  match a with
  | RequirementAnalyst => ["{}"]
  | _ => calculator a
  end.

(** The same run with a Technical Writer that cannot be reached. *)
Definition writer_down (a : agent) : list string :=
  match a with
  | TechnicalWriter => []
  | _ => calculator a
  end.

(** An Analyst that answers in prose. *)
Definition prose_analysis (a : agent) : list string :=
  match a with
  | RequirementAnalyst => ["This is not JSON"]
  | _ => calculator a
  end.

(** A Reviewer that rejects twice and a Developer with two revisions. *)
Definition rejected_twice (a : agent) : list string :=
  match a with
  | CodeReviewer => [rejecting_review; rejecting_review]
  | SoftwareDeveloper => ["improved code"; "improved code again"]
  | _ => []
  end.

(** A Reviewer whose answer is cut short. *)
Definition truncated_review (a : agent) : list string :=
  match a with
  | CodeReviewer => ["{incomplete json"]
  | SoftwareDeveloper => ["improved code"]
  | _ => []
  end.

(** A Reviewer that first answers with the empty object, then approves. *)
Definition empty_then_approved (a : agent) : list string :=
  match a with
  | CodeReviewer => ["{}"; approved_review]
  | SoftwareDeveloper => ["improved code"]
  | _ => []
  end.

(** Fixed replies: the Reviewer always rejects, the Developer always sends
    the same improved code. *)
Definition stubborn (a : agent) : string :=
  match a with
  | CodeReviewer => rejecting_review
  | SoftwareDeveloper => "improved code"
  | _ => "OK"
  end.

(** Fixed replies of the calculator run. *)
Definition cooperative (a : agent) : string :=
  match a with
  | RequirementAnalyst => calculator_analysis
  | SoftwareDeveloper => "def add(a,b): return a+b"
  | CodeReviewer => approved_review
  | TechnicalWriter => "# Calculator Documentation"
  | QAEngineer => "def test_add(): assert add(1, 2) == 3"
  | DevOpsEngineer => "#!/bin/bash"
  end.

End Scenario.

(** ** Accounting for a run *)

Section Accounting.
Context {World : Type} `{Ext : Externals World}.

(** [m'] is [m] after some assignments to keys of the pipeline. *)
Inductive written_over (m : gmap string json) : gmap string json → Prop :=
  | written_nothing : written_over m m
  | written_key k v m' :
      k ∈ pipeline_keys → written_over m m' → written_over m (<[k := v]> m').

(** A number of calls per agent. *)
Definition no_calls : agent → nat := λ _, 0%nat.

Definition one_call (a : agent) : agent → nat :=
  λ b, if decide (b = a) then 1%nat else 0%nat.

Definition both (b1 b2 : agent → nat) : agent → nat :=
  λ a, (b1 a + b2 a)%nat.

(** [_review_code] with its default budget: three reviews, two revisions. *)
Definition review_budget : agent → nat :=
  λ a, match a with
       | CodeReviewer => 3%nat
       | SoftwareDeveloper => 2%nat
       | _ => 0%nat
       end.

(** The whole pipeline: the Developer also generates the first version. *)
Definition pipeline_budget : agent → nat :=
  λ a, match a with
       | CodeReviewer => 3%nat
       | SoftwareDeveloper => 3%nat
       | _ => 1%nat
       end.

(** From [st] to [st'] the mapping was only written at pipeline keys, and
    the calls added stay within [b]. *)
Definition spends (b : agent → nat) (st st' : Framework World) : Prop :=
  written_over (results st) (results st')
  ∧ ∃ calls, added_calls st st' calls ∧ ∀ a, (calls_to a calls ≤ b a)%nat.

(** Every run of [m] ends, and stays within [b]. *)
Definition bounded {A} (b : agent → nat) (m : M World A) : Prop :=
  ∀ st o st', m st = (o, st') → o ≠ OutOfFuel ∧ spends b st st'.

End Accounting.

(** ** Tracing a failure to its call *)

Section Diagnosis.
Context {World : Type} `{Ext : Externals World}.

(** What the call [x] has to do with the exception [e]: the call raised it;
    or the call left no conversation with its agent to read, or an empty
    one; or it was a review, and what the parse block made of its reply is
    no dict. *)
Definition failure_of (e : exn) (x : exchange World) : Prop :=
  (∃ max_turns w,
     initiate_chat (target x) (message x) max_turns w = (Err e, after x))
  ∨ (e = KeyError ∧ chat_messages (after x) (target x) = None)
  ∨ (e = IndexError ∧ chat_messages (after x) (target x) = Some [])
  ∨ (e = AttributeError
     ∧ target x = CodeReviewer
     ∧ ∃ text v,
         response x = Some text
         ∧ extract_structured text fallback_verdict = Ok v
         ∧ ¬ ∃ members, v = JObj members).

(** Every run of [m] only adds calls to the log, and a run that raises has
    made a call, the last of which is behind the exception.  In
    [diagnosed_after x] a run that raises before its first call is put down
    to [x], the call made just before it. *)
Definition diagnosed_after {A} (x : option (exchange World)) (m : M World A)
  : Prop :=
  ∀ st o st',
    m st = (o, st') →
    ∃ calls,
      added_calls st st' calls
      ∧ ∀ e, o = Raise e →
             (∃ y earlier, calls = y :: earlier ∧ failure_of e y)
             ∨ (calls = [] ∧ ∃ y, x = Some y ∧ failure_of e y).

Definition diagnosed {A} (m : M World A) : Prop := diagnosed_after None m.

End Diagnosis.

(** ** The termination test of the user proxy

    [is_termination_msg] (main.py, lines 197-198) is the test by which the
    user proxy takes a message for the last one of a chat:
    [[
      lambda x: x.get("content", "").strip().endswith("TERMINATE") or
                "exitcode" in x.get("content", "")
    ]]
    A text is the list of the bytes of its UTF-8 encoding.  [str.strip()]
    removes the white space of Unicode, which is the code points that
    [str.isspace] accepts; a byte string that is the encoding of a text
    starts (ends) with the encoding of a code point exactly when the text
    starts (ends) with that code point, and the two needles are ASCII, so on
    encodings of texts the functions below are the methods of [str]. *)

(** UTF-8 of a code point of the basic plane. *)
Definition utf8 (cp : N) : list ascii :=
  if (cp <? 128)%N then [ascii_of_N cp]
  else if (cp <? 2048)%N then
    [ascii_of_N (192 + cp / 64); ascii_of_N (128 + cp mod 64)]
  else
    [ascii_of_N (224 + cp / 4096); ascii_of_N (128 + (cp / 64) mod 64);
     ascii_of_N (128 + cp mod 64)].

(** The white space of [str]: U+0009 to U+000D, U+001C to U+0020, U+0085,
    U+00A0, U+1680, U+2000 to U+200A, U+2028, U+2029, U+202F, U+205F and
    U+3000. *)
Definition whitespace_code_points : list N :=
  [9; 10; 11; 12; 13; 28; 29; 30; 31; 32; 133; 160; 5760;
   8192; 8193; 8194; 8195; 8196; 8197; 8198; 8199; 8200; 8201; 8202;
   8232; 8233; 8239; 8287; 12288]%N.

Definition whitespace : list (list ascii) := utf8 <$> whitespace_code_points.

(** The rest of [l] after [p], when [l] starts with [p]. *)
Fixpoint drop_prefix (p l : list ascii) : option (list ascii) :=
  match p, l with
  | [], _ => Some l
  | a :: p', b :: l' => if Ascii.eqb a b then drop_prefix p' l' else None
  | _ :: _, [] => None
  end.

(** The rest of [l] after one of [tokens] at its head. *)
Fixpoint skip (tokens : list (list ascii)) (l : list ascii)
  : option (list ascii) :=
  match tokens with
  | [] => None
  | t :: rest =>
      match drop_prefix t l with
      | Some r => Some r
      | None => skip rest l
      end
  end.

(** [l] without the [tokens] at its head; every step takes at least one
    byte, so [length l] steps are enough. *)
Fixpoint lstrip_fuel (tokens : list (list ascii)) (n : nat) (l : list ascii)
  : list ascii :=
  match n with
  | O => l
  | S n' =>
      match skip tokens l with
      | Some r => lstrip_fuel tokens n' r
      | None => l
      end
  end.

Definition lstrip (l : list ascii) : list ascii :=
  lstrip_fuel whitespace (length l) l.

Definition rstrip (l : list ascii) : list ascii :=
  reverse (lstrip_fuel (reverse <$> whitespace) (length l) (reverse l)).

(** [s.strip()]. *)
Definition strip (l : list ascii) : list ascii := rstrip (lstrip l).

(** [s.endswith(suffix)]. *)
Definition endswith (l suffix : list ascii) : bool :=
  match drop_prefix (reverse suffix) (reverse l) with
  | Some _ => true
  | None => false
  end.

(** [needle in s]. *)
Fixpoint contains (needle l : list ascii) : bool :=
  match drop_prefix needle l with
  | Some _ => true
  | None =>
      match l with
      | [] => false
      | _ :: rest => contains needle rest
      end
  end.

(** The test, on the members of the message [x].  [x.get("content", "")] is
    the empty text only when the key is absent; a content that is present
    and is no text ([None], a list of parts) has no [strip]. *)
Definition is_termination_msg (x : list (string * json)) : result bool :=
  match default (JStr "") (dict_get "content" x) with
  | JStr content =>
      Ok (endswith (strip (list_ascii_of_string content))
            (list_ascii_of_string "TERMINATE")
          || contains (list_ascii_of_string "exitcode")
               (list_ascii_of_string content))
  | _ => Err AttributeError
  end.

(** A text of white space only. *)
Definition blank (ws : string) : Prop :=
  ∃ tokens,
    Forall (λ t, t ∈ whitespace) tokens
    ∧ list_ascii_of_string ws = concat tokens.

(** ** Saving the results: [save_results]

    The disk is a map from paths to file contents.  It is an ideal disk:
    directories are not tracked, so [os.makedirs] leaves it as it is, and
    neither the opening of a file for writing nor the writing of a text to
    it ever fails.  [open(path, 'w')] empties the file, and the one write
    that follows gives it its content.  What is proved of [save_results] on
    this disk is proved of the code as long as the file system refuses
    nothing. *)

(** A piece of code that works on the disk. *)
Definition Disk (A : Type) : Type :=
  gmap string string → result A * gmap string string.

#[global] Instance Disk_ret : MRet Disk :=
  λ A a disk, (Ok a, disk).

#[global] Instance Disk_bind : MBind Disk :=
  λ A B f m disk,
    match m disk with
    | (Ok a, disk') => f a disk'
    | (Err e, disk') => (Err e, disk')
    end.

(** [f"{output_dir}/{name}"]. *)
Definition file_path (output_dir name : string) : string :=
  output_dir +:+ "/" +:+ name.

(** [with open(path, 'w') as f: f.write(text)] for a text at hand. *)
Definition write_string (path text : string) : Disk unit :=
  λ disk, (Ok (), <[path := text]> disk).

(** [with open(path, 'w') as f: f.write(v)] for a value of the mapping:
    [write] takes a [str] only, and the file is open, hence empty, by the
    time it refuses anything else. *)
Definition write_text (path : string) (v : json) : Disk unit :=
  λ disk,
    match v with
    | JStr s => (Ok (), <[path := s]> disk)
    | _ => (Err (OtherError "TypeError"), <[path := ""]> disk)
    end.

(** The text of the README, around the time of the call. *)
Definition readme_head : list string :=
  ["# Generated Output";
   "";
   "This directory contains all generated artifacts from the Multi-Agent Framework.";
   "";
   "## Generated Files";
   "";
   "### Requirements";
   "- `requirements.json` - Structured requirements from natural language input";
   "";
   "### Code";
   "- `generated_code.py` - Final production-ready code (after review)";
   "- `initial_code.py` - Initial code before review (if different)";
   "";
   "### Quality Assurance";
   "- `code_review.json` - Detailed code review results";
   "- `test_generated_code.py` - Comprehensive test suite";
   "";
   "### Documentation";
   "- `documentation.md` - Complete technical documentation";
   "";
   "### Deployment";
   "- `deploy.sh` - Deployment script";
   "- `deployment_info.json` - Deployment metadata and timestamps";
   "";
   "### Complete Data";
   "- `full_results.json` - All results in structured JSON format";
   "";
   "## Generated On";
   ""].

Definition readme_tail : list string :=
  ["";
   "";
   "## How to Use";
   "";
   "### Run the Code";
   "```bash";
   "python generated_code.py";
   "```";
   "";
   "### Run Tests";
   "```bash";
   "python -m pytest test_generated_code.py -v";
   "```";
   "";
   "### Deploy";
   "```bash";
   "chmod +x deploy.sh";
   "./deploy.sh";
   "```";
   "";
   "### View Documentation";
   "Open `documentation.md` in any Markdown viewer or editor.";
   ""].

Definition readme_content (generated_on : string) : string :=
  String.concat nl readme_head +:+ generated_on +:+ String.concat nl readme_tail.

Section Saving.
Context {World : Type} `{Ext : Externals World}.

(** [json.dumps(self.results, indent=2)].  The members of the object come
    out in the order in which the keys were first assigned, which the map
    does not record: the printing of the whole mapping is a parameter. *)
Variable dump_results : gmap string json → string.

(** [with open(path, 'w') as f: json.dump(v, f, indent=2)]. *)
Definition dump_json (path : string) (v : json) : Disk unit :=
  write_string path (json_dumps (Some 2) v).

(** [if key in self.results: action(self.results[key])]. *)
Definition when_present (self_results : gmap string json) (key : string)
    (action : json → Disk unit) : Disk unit :=
  match self_results !! key with
  | Some v => action v
  | None => mret ()
  end.

(** [deploy_data.get('script', '') if isinstance(deploy_data, dict) else
    deploy_data]. *)
Definition script_content (deploy_data : json) : json :=
  match deploy_data with
  | JObj members => default (JStr "") (dict_get "script" members)
  | _ => deploy_data
  end.

(** [save_results(output_dir)], with [generated_on] the reading of the clock
    that goes into the README. *)
Definition save_results (output_dir generated_on : string)
    (st : Framework World) : Disk unit :=
  let self_results := results st in
  when_present self_results "requirements"
    (dump_json (file_path output_dir "requirements.json"));;
  when_present self_results "code"
    (write_text (file_path output_dir "initial_code.py"));;
  when_present self_results "final_code"
    (write_text (file_path output_dir "generated_code.py"));;
  when_present self_results "review"
    (dump_json (file_path output_dir "code_review.json"));;
  when_present self_results "documentation"
    (write_text (file_path output_dir "documentation.md"));;
  when_present self_results "tests"
    (write_text (file_path output_dir "test_generated_code.py"));;
  when_present self_results "deployment"
    (λ deploy_data,
       write_text (file_path output_dir "deploy.sh") (script_content deploy_data);;
       match deploy_data with
       | JObj _ => dump_json (file_path output_dir "deployment_info.json") deploy_data
       | _ => mret ()
       end);;
  write_string (file_path output_dir "full_results.json")
    (dump_results self_results);;
  write_string (file_path output_dir "README.md") (readme_content generated_on).

(** The files one call writes, by what the mapping holds. *)
Definition saved_files (self_results : gmap string json) : list string :=
  (if self_results !! "requirements" is Some _ then ["requirements.json"] else [])
  ++ (if self_results !! "code" is Some _ then ["initial_code.py"] else [])
  ++ (if self_results !! "final_code" is Some _ then ["generated_code.py"] else [])
  ++ (if self_results !! "review" is Some _ then ["code_review.json"] else [])
  ++ (if self_results !! "documentation" is Some _ then ["documentation.md"] else [])
  ++ (if self_results !! "tests" is Some _ then ["test_generated_code.py"] else [])
  ++ match self_results !! "deployment" with
     | Some (JObj _) => ["deploy.sh"; "deployment_info.json"]
     | Some _ => ["deploy.sh"]
     | None => []
     end
  ++ ["full_results.json"; "README.md"].

(** The text of a value that is one; the text written to deploy.sh. *)
Definition as_text (v : json) : option string :=
  match v with
  | JStr s => Some s
  | _ => None
  end.

(** The keys whose values are written as they are hold texts, and so does
    the script of the deployment. *)
Definition texts_are_texts (self_results : gmap string json) : Prop :=
  (∀ key v, key ∈ ["code"; "final_code"; "documentation"; "tests"] →
            self_results !! key = Some v → is_Some (as_text v))
  ∧ ∀ d, self_results !! "deployment" = Some d →
         is_Some (as_text (script_content d)).

(** [m] creates or changes no file outside [paths]. *)
Definition only_writes {A} (paths : list string) (m : Disk A) : Prop :=
  ∀ disk r disk' p, m disk = (r, disk') → p ∉ paths → disk' !! p = disk !! p.

(** When [m] raises, it raises the error of a write that was handed
    something other than a text, and has touched no file outside [paths]. *)
Definition raises_within {A} (paths : list string) (m : Disk A) : Prop :=
  ∀ disk e disk',
    m disk = (Err e, disk') →
    e = OtherError "TypeError" ∧ ∀ p, p ∉ paths → disk' !! p = disk !! p.

(** The file at [path] gets [content], when there is one. *)
Definition put_if (content : option string) (path : string)
    (disk : gmap string string) : gmap string string :=
  match content with
  | Some c => <[path := c]> disk
  | None => disk
  end.

(** Which file holds the value of which key. *)
Definition artifact_files : list (string * string) :=
  [("requirements", "requirements.json"); ("code", "initial_code.py");
   ("final_code", "generated_code.py"); ("review", "code_review.json");
   ("documentation", "documentation.md"); ("tests", "test_generated_code.py");
   ("deployment", "deploy.sh"); ("deployment", "deployment_info.json")].

(** The ten files of a complete save. *)
Definition all_files : list string :=
  ["requirements.json"; "initial_code.py"; "generated_code.py";
   "code_review.json"; "documentation.md"; "test_generated_code.py";
   "deploy.sh"; "deployment_info.json"; "full_results.json"; "README.md"].

End Saving.

(** ** The page: streamlit_app.py

    The functions of the page work on [st.session_state] and, through the
    instance it holds, on the disk.

    [st.session_state.results] is either [None] or a mapping object that an
    instance returned, which is that instance's [self.results] itself: the
    session and the instance then share one object.  [Current] is the
    mapping of the instance now in the session, read through it; [Former m]
    is the mapping of an instance that the session has let go of, which
    nothing writes to any more.

    [clock_reads] is a ghost field: it counts the readings of the clock, so
    that each reading can be a different one. *)

Module App.

(** One entry of [st.session_state.logs]. *)
Record log_entry : Type := {
  timestamp : string;
  message : string;
  level : string
}.

Inductive results_ref : Type :=
  | NoResults
  | Current
  | Former (m : gmap string json).

Record Session (World : Type) : Type := {
  framework : option (Framework World);
  session_results : results_ref;
  processing : bool;
  logs : list log_entry;
  errors : list string;
  clock_reads : nat
}.
Arguments framework {World} _.
Arguments session_results {World} _.
Arguments processing {World} _.
Arguments logs {World} _.
Arguments errors {World} _.
Arguments clock_reads {World} _.

Section Page.
Context {World : Type} `{Ext : Externals World}.

(** What the page calls but does not define:
    - [hms n], [ymd_hms n]: the [n]-th reading of the clock as
      [strftime("%H:%M:%S")] and as [strftime('%Y-%m-%d %H:%M:%S')] print it;
    - [str_exn e]: [str(e)];
    - [format_exc e]: [traceback.format_exc()] while [e] is handled;
    - [new_user_proxy api_key model]: the constructors of autogen that
      [_initialize_agents] calls, giving the world behind the new user
      proxy, or raising;
    - [dump_results]: the printing of the whole mapping. *)
Variables hms ymd_hms : nat → string.
Variables str_exn format_exc : exn → string.
Variable new_user_proxy : string → string → result World.
Variable dump_results : gmap string json → string.

(** What the page shows as results. *)
Definition displayed (s : Session World) : option (gmap string json) :=
  match session_results s with
  | NoResults => None
  | Current => results <$> framework s
  | Former m => Some m
  end.


(** [add_log(message, level)] (lines 86-93). *)
Definition add_log (message level : string) (s : Session World)
  : Session World :=
  {| framework := framework s;
     session_results := session_results s;
     processing := processing s;
     logs := logs s ++ [{| timestamp := hms (clock_reads s);
                           message := message;
                           level := level |}];
     errors := errors s;
     clock_reads := S (clock_reads s) |}.

(** [st.error(text)]: one more error box on the page. *)
Definition st_error (text : string) (s : Session World) : Session World :=
  {| framework := framework s;
     session_results := session_results s;
     processing := processing s;
     logs := logs s;
     errors := errors s ++ [text];
     clock_reads := clock_reads s |}.

(** [st.session_state.processing = b]. *)
Definition set_processing (b : bool) (s : Session World) : Session World :=
  {| framework := framework s;
     session_results := session_results s;
     processing := b;
     logs := logs s;
     errors := errors s;
     clock_reads := clock_reads s |}.

(** [st.session_state.logs = []]. *)
Definition clear_logs (s : Session World) : Session World :=
  {| framework := framework s;
     session_results := session_results s;
     processing := processing s;
     logs := [];
     errors := errors s;
     clock_reads := clock_reads s |}.

(** The instance of the session after a method has worked on it. *)
Definition mutated (fw : Framework World) (s : Session World)
  : Session World :=
  {| framework := Some fw;
     session_results := session_results s;
     processing := processing s;
     logs := logs s;
     errors := errors s;
     clock_reads := clock_reads s |}.

(** [st.session_state.results = results], for the mapping that the instance
    of the session has returned. *)
Definition set_results (s : Session World) : Session World :=
  {| framework := framework s;
     session_results := Current;
     processing := processing s;
     logs := logs s;
     errors := errors s;
     clock_reads := clock_reads s |}.

(** The clock has been read once more (by [save_results], for the
    README). *)
Definition clock_read (s : Session World) : Session World :=
  {| framework := framework s;
     session_results := session_results s;
     processing := processing s;
     logs := logs s;
     errors := errors s;
     clock_reads := S (clock_reads s) |}.



(** The [except Exception as e] block of [process_requirement] (lines
    129-131). *)
Definition report (e : exn) (s : Session World) : Session World :=
  st_error ("Error: " +:+ str_exn e +:+ nl +:+ nl +:+ format_exc e)
    (add_log ("Error during processing: " +:+ str_exn e) "error" s).

(** [process_requirement(requirement)] (lines 108-134).  The method called
    in the [try] block is [process_requirement] of the class; the page saves
    to the directory output.  [finally] runs on every way out of the [try]
    that the code has; a loop that never ends (which no run of the method
    has) would leave the function hanging inside it. *)
Definition process_requirement (requirement : string) (s : Session World)
    (disk : gmap string string)
  : outcome unit * Session World * gmap string string :=
  match framework s with
  | None => (Return (), add_log "Framework not initialized" "error" s, disk)
  | Some fw =>
      let s1 :=
        add_log "Starting multi-agent processing..." "info"
          (clear_logs (set_processing true s)) in
      match process_requirement requirement fw with
      | (Return _, fw') =>
          let s2 := set_results (mutated fw' s1) in
          match
            save_results dump_results "output" (ymd_hms (clock_reads s2))
              fw' disk
          with
          | (Ok _, disk') =>
              (Return (),
               set_processing false
                 (add_log "Processing completed successfully!" "success"
                    (clock_read s2)),
               disk')
          | (Err e, disk') =>
              (Return (), set_processing false (report e s2), disk')
          end
      | (Raise e, fw') =>
          (Return (), set_processing false (report e (mutated fw' s1)), disk)
      | (OutOfFuel, fw') => (OutOfFuel, mutated fw' s1, disk)
      end
  end.

End Page.

End App.

(** ** More concrete runs *)

Module Runs.

(** A printer for the whole mapping: its items in the order of the map. *)
Definition dump_all (m : gmap string json) : string :=
  Scenario.dumps (Some 2) (JObj (map_to_list m)).

(** An instance with a given mapping, behind a patched [initiate_chat]. *)
Definition holding (m : gmap string json) : Framework unit :=
  {| user_proxy := (); results := m; invocations := [] |}.

(** The mapping the unit test of [save_results] installs. *)
Definition test_results : gmap string json :=
  <["final_code" := JStr "def test(): pass"]>
    (<["documentation" := JStr "# Docs"]>
       (<["tests" := JStr "import unittest"]>
          (<["deployment" := JObj [("script", JStr "#!/bin/bash")]]> ∅))).

(** A mapping whose code is not a text. *)
Definition code_not_text : gmap string json :=
  <["requirements" := JObj []]> (<["code" := JObj []]> ∅).

(** A deployment entry without a script, and one that is a bare text. *)
Definition no_script : gmap string json :=
  <["deployment" := JObj [("timestamp", JStr "2024-01-01T00:00:00")]]> ∅.

Definition bare_script : gmap string json :=
  <["deployment" := JStr "#!/bin/bash"]> ∅.

(** A disk with a file left by an earlier save. *)
Definition old_disk : gmap string string :=
  <[file_path "output" "initial_code.py" := "old code"]> ∅.

(** Readings of a clock that stands still, and the texts of exceptions. *)
Definition noon (n : nat) : string := "12:00:00".

Definition noon_dated (n : nat) : string := "2024-01-01 12:00:00".

Definition exn_name (e : exn) : string :=
  match e with
  | KeyError => "KeyError"
  | IndexError => "IndexError"
  | AttributeError => "AttributeError"
  | UnboundLocalError => "UnboundLocalError"
  | JSONDecodeError => "JSONDecodeError"
  | OtherError name => name
  end.

Definition traceback (e : exn) : string :=
  "Traceback (most recent call last):".


(** A session that shows the results of an earlier run of its instance,
    whose Technical Writer can no longer be reached. *)
Definition page_with_results : App.Session Scenario.world :=
  {| App.framework :=
       Some {| user_proxy := user_proxy (Scenario.fresh Scenario.writer_down);
               results :=
                 <["code" := JStr "def old(): pass"]>
                   (<["documentation" := JStr "# Old documentation"]> ∅);
               invocations := [] |};
     App.session_results := App.Current;
     App.processing := false;
     App.logs := [];
     App.errors := [];
     App.clock_reads := 0 |}.

End Runs.

(** * Properties *)

(** ** The brace span *)

Lemma occurs_split (c : ascii) (s : string) :
  occurs c s = true → ∃ a b, s = a +:+ String c b.
Proof.
  induction s as [|d s IH]; simpl; [discriminate|].
  destruct (Ascii.eqb_spec d c) as [->|Hne]; simpl.
  - intros _. by exists EmptyString, s.
  - intros [a [b ->]]%IH. by exists (String d a), b.
Qed.

Lemma match_dotstar_close_none (s : string) :
  match_dotstar_close s = None ↔ occurs close_brace s = false.
Proof.
  induction s as [|c s IH]; simpl; [done|].
  destruct (match_dotstar_close s) as [m|].
  - split; [done|]. intros [_ H]%orb_false_iff.
    apply IH in H. discriminate.
  - destruct (Ascii.eqb c close_brace); simpl; [done|].
    split; [intros _; by apply IH | done].
Qed.

(** The greedy star stops at the last closing brace. *)
Lemma match_dotstar_close_last (mid post : string) :
  occurs close_brace post = false →
  match_dotstar_close (mid +:+ String close_brace post)
  = Some (mid +:+ String close_brace EmptyString).
Proof.
  intros Hpost. induction mid as [|c mid IH]; simpl.
  - apply match_dotstar_close_none in Hpost. by rewrite Hpost.
  - by rewrite IH.
Qed.

(** The search starts at the first opening brace. *)
Lemma re_search_skip (pre s : string) :
  occurs open_brace pre = false → re_search (pre +:+ s) = re_search s.
Proof.
  induction pre as [|c pre IH]; simpl; [done|].
  intros [Hc Hpre]%orb_false_iff. rewrite Hc. by apply IH.
Qed.

Lemma re_search_span (pre mid post : string) :
  occurs open_brace pre = false →
  occurs close_brace post = false →
  re_search (pre +:+ String open_brace (mid +:+ String close_brace post))
  = Some (String open_brace (mid +:+ String close_brace EmptyString)).
Proof.
  intros Hpre Hpost. rewrite re_search_skip by done.
  cbn [re_search match_here].
  by rewrite Ascii.eqb_refl, match_dotstar_close_last.
Qed.

Lemma re_search_no_span (text : string) :
  (∀ pre mid post,
      text ≠ pre +:+ String open_brace (mid +:+ String close_brace post)) →
  re_search text = None.
Proof.
  induction text as [|c text IH]; intros Hno; [done|].
  assert (re_search text = None) as Hrest.
  { apply IH. intros pre mid post ->. by apply (Hno (String c pre) mid post). }
  cbn [re_search match_here].
  destruct (Ascii.eqb_spec c open_brace) as [->|_]; [|done].
  destruct (match_dotstar_close text) as [m|] eqn:Hm; [|done].
  assert (occurs close_brace text = true) as [a [b ->]]%occurs_split.
  { destruct (occurs close_brace text) eqn:Ho; [done|].
    apply match_dotstar_close_none in Ho. congruence. }
  by destruct (Hno EmptyString a b).
Qed.

Lemma occurs_app (c : ascii) (a b : string) :
  occurs c (a +:+ b) = occurs c a || occurs c b.
Proof. induction a as [|d a IH]; simpl; [done|]. by rewrite IH, orb_assoc. Qed.

Lemma occurs_middle (c : ascii) (a b : string) :
  occurs c (a +:+ String c b) = true.
Proof.
  induction a as [|d a IH]; simpl.
  - by rewrite Ascii.eqb_refl.
  - by rewrite IH, orb_true_r.
Qed.

Lemma match_dotstar_close_inv (s m : string) :
  match_dotstar_close s = Some m →
  ∃ mid post, s = mid +:+ String close_brace post
              ∧ occurs close_brace post = false.
Proof.
  revert m. induction s as [|c s IH]; intros m; simpl; [done|].
  destruct (match_dotstar_close s) as [m'|] eqn:Hm.
  - intros _. destruct (IH m' eq_refl) as (mid & post & -> & Hpost).
    by exists (String c mid), post.
  - destruct (Ascii.eqb_spec c close_brace) as [->|]; [|done].
    intros _. exists EmptyString, s. split; [done|].
    by apply match_dotstar_close_none.
Qed.

(** A span found is the one from the first opening brace to the last
    closing brace. *)
Lemma re_search_inv (text span : string) :
  re_search text = Some span →
  ∃ pre mid post,
    text = pre +:+ String open_brace (mid +:+ String close_brace post)
    ∧ occurs open_brace pre = false
    ∧ occurs close_brace post = false.
Proof.
  induction text as [|c text IH]; cbn [re_search match_here]; [done|].
  destruct (Ascii.eqb_spec c open_brace) as [->|Hc].
  - destruct (match_dotstar_close text) as [m|] eqn:Hm; cbn.
    + intros _. destruct (match_dotstar_close_inv _ _ Hm) as (mid & post & -> & ?).
      by exists EmptyString, mid, post.
    + intros Hrest. destruct (IH Hrest) as (pre & mid & post & -> & _ & _).
      apply match_dotstar_close_none in Hm.
      rewrite occurs_app in Hm. cbn [occurs] in Hm.
      by rewrite occurs_middle, !orb_true_r in Hm.
  - intros Hrest. destruct (IH Hrest) as (pre & mid & post & -> & Hpre & Hpost).
    exists (String c pre), mid, post. split; [done|]. split; [|done].
    cbn [occurs]. rewrite Hpre. by destruct (Ascii.eqb_spec c open_brace).
Qed.

Lemma re_search_found (pre mid post : string) :
  re_search (pre +:+ String open_brace (mid +:+ String close_brace post)) ≠ None.
Proof.
  induction pre as [|c pre IH].
  - change (re_search (String open_brace (mid +:+ String close_brace post))
            ≠ None).
    cbn [re_search match_here]. rewrite Ascii.eqb_refl.
    destruct (match_dotstar_close _) as [m|] eqn:Hm; [done|].
    apply match_dotstar_close_none in Hm.
    by rewrite occurs_middle in Hm.
  - change (re_search (String c (pre +:+ String open_brace
                                   (mid +:+ String close_brace post))) ≠ None).
    cbn [re_search]. by destruct (match_here _).
Qed.

(** ** Running the monad *)

Section Properties.
Context {World : Type} `{Ext : Externals World}.
Implicit Types (st : Framework World) (w : World) (a : agent).

Lemma bind_run {A B} (m : M World A) (f : A → M World B) st :
  (m ≫= f) st =
  match m st with
  | (Return x, st') => f x st'
  | (Raise e, st') => (Raise e, st')
  | (OutOfFuel, st') => (OutOfFuel, st')
  end.
Proof. reflexivity. Qed.

Lemma bind_inv {A B} (m : M World A) (f : A → M World B) st o st' :
  (m ≫= f) st = (o, st') →
  (∃ x s1, m st = (Return x, s1) ∧ f x s1 = (o, st'))
  ∨ (∃ e, m st = (Raise e, st') ∧ o = Raise e)
  ∨ (m st = (OutOfFuel, st') ∧ o = OutOfFuel).
Proof.
  rewrite bind_run. destruct (m st) as [[x|e|] s1]; intros H.
  - left. eauto.
  - right; left. injection H as <- <-. eauto.
  - right; right. by injection H as <- <-.
Qed.

Lemma chat_inv a msg t st (o : outcome unit) st' :
  chat a msg t st = (o, st') →
  ∃ w, st' = after_call st a msg w ∧ o ≠ OutOfFuel.
Proof.
  unfold chat. destruct (initiate_chat a msg t (user_proxy st)) as [[[]|e] w];
    intros [= <- <-]; by exists w.
Qed.

Lemma last_content_inv a st (o : outcome string) st' :
  last_content a st = (o, st') → st' = st ∧ o ≠ OutOfFuel.
Proof.
  unfold last_content.
  destruct (chat_messages (user_proxy st) a) as [msgs|]; [destruct (last msgs)|];
    by intros [= <- <-].
Qed.

Lemma lift_inv {A} (r : result A) st (o : outcome A) st' :
  lift r st = (o, st') → st' = st ∧ o ≠ OutOfFuel.
Proof. destruct r; by intros [= <- <-]. Qed.

(** A successful invocation followed by reading the reply. *)
Lemma ask_bind {B} a msg t st text w' (k : string → M World B) :
  responds a msg t (user_proxy st) text w' →
  (chat a msg t ≫= λ _, last_content a ≫= k) st
  = k text (after_call st a msg w').
Proof.
  intros [Hchat Hlast]. rewrite bind_run. unfold chat. rewrite Hchat.
  rewrite bind_run. unfold last_content. cbn [after_call user_proxy].
  destruct (chat_messages w' a) as [msgs|]; [|done].
  cbn in Hlast. by rewrite Hlast.
Qed.

Lemma ask_ret a msg t st text w' :
  responds a msg t (user_proxy st) text w' →
  (chat a msg t ≫= λ _, last_content a) st
  = (Return text, after_call st a msg w').
Proof.
  intros [Hchat Hlast]. rewrite bind_run. unfold chat. rewrite Hchat.
  unfold last_content. cbn [after_call user_proxy].
  destruct (chat_messages w' a) as [msgs|]; [|done].
  cbn in Hlast. by rewrite Hlast.
Qed.

(** What one invocation and the reading of its reply do to the instance,
    whatever their outcome. *)
Lemma ask_inv a msg t st (o : outcome string) st' :
  (chat a msg t ≫= λ _, last_content a) st = (o, st') →
  o ≠ OutOfFuel ∧ ∃ w, st' = after_call st a msg w
  ∧ ∀ text, o = Return text → responds a msg t (user_proxy st) text w.
Proof.
  rewrite bind_run. unfold chat, last_content, responds.
  destruct (initiate_chat a msg t (user_proxy st)) as [[[]|e] w].
  - cbn [after_call user_proxy].
    destruct (chat_messages w a) as [msgs|] eqn:Hm;
      [destruct (last msgs) as [c|] eqn:Hl|]; intros [= <- <-];
      (split; [done|]); exists w; (split; [done|]); intros text [= <-].
    split; [done|]. by rewrite Hm.
  - intros [= <- <-]. split; [done|]. by exists w.
Qed.

Lemma calls_to_nil a : calls_to a (@nil (exchange World)) = 0%nat.
Proof. reflexivity. Qed.

Lemma calls_to_cons a (x : exchange World) log :
  calls_to a (x :: log)
  = ((if decide (target x = a) then 1 else 0) + calls_to a log)%nat.
Proof. unfold calls_to. rewrite filter_cons. by case_decide. Qed.

Lemma calls_to_app a (l1 l2 : list (exchange World)) :
  calls_to a (l1 ++ l2) = (calls_to a l1 + calls_to a l2)%nat.
Proof. unfold calls_to. by rewrite filter_app, length_app. Qed.

(** The parse block always yields a value. *)
Lemma extract_structured_cases (text : string) (fallback : json) :
  extract_structured text fallback =
  Ok match re_search text with
     | Some span =>
         match json_loads span with
         | Ok v => v
         | Err _ => fallback
         end
     | None => fallback
     end.
Proof.
  unfold extract_structured, try_except.
  destruct (re_search text) as [span|]; [|done].
  by destruct (json_loads span).
Qed.

(** ** The revision loop *)

Lemma review_loop_exit fuel max_iterations code iteration rr st :
  max_iterations ≤ iteration →
  review_loop fuel max_iterations code iteration rr st =
  (match rr with
   | Some r => Return (r, code)
   | None => Raise UnboundLocalError
   end, st).
Proof.
  intros Hle. destruct fuel; cbn [review_loop];
    (destruct (Z.ltb_spec iteration max_iterations); [lia|]); by destruct rr.
Qed.

(** One pass through the body when the review call gets its reply. *)
Lemma review_loop_step fuel max_iterations code iteration rr st text w' v status :
  iteration < max_iterations →
  responds CodeReviewer (review_message code) 1 (user_proxy st) text w' →
  extract_structured text fallback_verdict = Ok v →
  py_get v "status" = Ok status →
  review_loop (S fuel) max_iterations code iteration rr st =
  if is_approved status then
    (Return (v, code), after_call st CodeReviewer (review_message code) w')
  else
    (code' ←
       (if iteration <? max_iterations - 1 then
          chat SoftwareDeveloper (improve_message text code) 1;;
          last_content SoftwareDeveloper
        else mret code);
     review_loop fuel max_iterations code' (iteration + 1) (Some v))
      (after_call st CodeReviewer (review_message code) w').
Proof.
  intros Hlt Hresp Hparse Hget. cbn [review_loop].
  destruct (Z.ltb_spec iteration max_iterations); [|lia].
  rewrite (ask_bind _ _ _ _ _ _ _ Hresp), Hparse. cbn [lift].
  rewrite bind_run. cbn [mret M_ret]. rewrite Hget. cbn [lift].
  rewrite bind_run. cbn [mret M_ret].
  by destruct (is_approved status).
Qed.

(** The budget bounds the calls, whatever the agents answer and whether or
    not a call fails; the loop never touches [self.results]. *)
(** Closes the bookkeeping goals about a log extended by a few calls. *)
Ltac bounds :=
  unfold added_calls in *; split_and!;
  rewrite ?calls_to_app, ?calls_to_cons, ?calls_to_nil; simpl;
  first
    [ done
    | lia
    | by (apply Forall_app; split; [done|repeat constructor])
    | by repeat constructor
    | match goal with H : invocations _ = _ |- _ =>
        by rewrite H, <- ?app_assoc end ].

Lemma review_loop_bounded fuel max_iterations code iteration rr st o st' :
  review_loop fuel max_iterations code iteration rr st = (o, st') →
  (max_iterations - iteration ≤ Z.of_nat fuel → o ≠ OutOfFuel)
  ∧ results st' = results st
  ∧ ∃ calls, added_calls st st' calls
      ∧ Z.of_nat (calls_to CodeReviewer calls) ≤ Z.max 0 (max_iterations - iteration)
      ∧ Z.of_nat (calls_to SoftwareDeveloper calls)
        ≤ Z.max 0 (max_iterations - iteration - 1)
      ∧ Forall (λ x, target x = CodeReviewer ∨ target x = SoftwareDeveloper) calls.
Proof.
  revert code iteration rr st.
  induction fuel as [|fuel IH]; intros code iteration rr st Hrun.
  { cbn [review_loop] in Hrun.
    destruct (Z.ltb_spec iteration max_iterations).
    - injection Hrun as <- <-. split; [lia|]. split; [done|]. exists []. bounds.
    - assert (o ≠ OutOfFuel ∧ st' = st) as [Ho ->]
        by (destruct rr; by injection Hrun as <- <-).
      split; [done|]. split; [done|]. exists []. bounds. }
  destruct (Z.ltb_spec iteration max_iterations) as [Hlt|Hge]; cycle 1.
  { rewrite review_loop_exit in Hrun by lia.
    injection Hrun as <- <-. split; [by destruct rr|]. split; [done|].
    exists []. bounds. }
  cbn [review_loop] in Hrun.
  destruct (Z.ltb_spec iteration max_iterations); [|lia].
  (* the review call *)
  rewrite bind_run in Hrun.
  destruct (chat CodeReviewer (review_message code) 1 st) as [o1 s1] eqn:Hchat.
  apply chat_inv in Hchat as [w1 [-> Ho1]].
  set (s1 := after_call st CodeReviewer (review_message code) w1) in *.
  set (x1 := {| target := CodeReviewer; message := review_message code;
                after := w1 |}).
  assert (∀ o, o ≠ @OutOfFuel (json * string) →
            (max_iterations - iteration ≤ Z.of_nat (S fuel) → o ≠ OutOfFuel)
            ∧ results s1 = results st
            ∧ ∃ calls, added_calls st s1 calls
                ∧ Z.of_nat (calls_to CodeReviewer calls) ≤ Z.max 0 (max_iterations - iteration)
                ∧ Z.of_nat (calls_to SoftwareDeveloper calls)
                  ≤ Z.max 0 (max_iterations - iteration - 1)
                ∧ Forall (λ x, target x = CodeReviewer ∨ target x = SoftwareDeveloper) calls)
    as Hstop.
  { intros o' Ho'. split; [done|]. split; [done|]. exists [x1]. bounds. }
  destruct o1 as [[]|e|]; [|injection Hrun as <- <-; by apply Hstop|done].
  (* reading the reply, parsing it, reading the status *)
  rewrite bind_run in Hrun.
  destruct (last_content CodeReviewer s1) as [o2 s2] eqn:Hlast.
  apply last_content_inv in Hlast as [-> Ho2].
  destruct o2 as [text|e|]; [|injection Hrun as <- <-; by apply Hstop|done].
  rewrite extract_structured_cases in Hrun. cbn [lift] in Hrun.
  rewrite bind_run in Hrun. cbn [mret M_ret] in Hrun.
  set (v := match re_search text with
            | Some span => match json_loads span with Ok v => v | Err _ => fallback_verdict end
            | None => fallback_verdict
            end) in *.
  rewrite bind_run in Hrun.
  destruct (py_get v "status") as [status|e]; cbn [lift mret M_ret raise] in Hrun;
    [|injection Hrun as <- <-; by apply Hstop].
  destruct (is_approved status); [injection Hrun as <- <-; by apply Hstop|].
  (* the revision, when budget remains *)
  rewrite bind_run in Hrun.
  destruct (Z.ltb_spec iteration (max_iterations - 1)) as [Hbudget|Hlast].
  - destruct ((chat SoftwareDeveloper (improve_message text code) 1 ≫=
                 λ _, last_content SoftwareDeveloper) s1) as [o3 s3] eqn:Hask.
    apply ask_inv in Hask as [Ho3 [w3 [-> _]]].
    set (x3 := {| target := SoftwareDeveloper;
                  message := improve_message text code; after := w3 |}).
    destruct o3 as [code'|e|]; [| |done].
    + apply IH in Hrun as [Ho [Hres [calls [Hcalls [Hrev [Hdev Htargets]]]]]].
      split; [intros; apply Ho; lia|]. split; [by rewrite Hres|].
      exists (calls ++ [x3; x1])%list. bounds.
    + injection Hrun as <- <-. split; [done|]. split; [done|].
      exists [x3; x1]. bounds.
  - cbn [mret M_ret] in Hrun.
    apply IH in Hrun as [Ho [Hres [calls [Hcalls [Hrev [Hdev Htargets]]]]]].
    split; [intros; apply Ho; lia|]. split; [by rewrite Hres|].
    exists (calls ++ [x1])%list. bounds.
Qed.

(** C1.  For every budget [max_iterations >= 1], whatever the Reviewer and
    the Developer answer and whether or not a call fails, [_review_code]
    terminates (the loop never needs more passes than its budget) having
    made at most [max_iterations] calls to the Reviewer and at most
    [max_iterations - 1] calls to the Developer. *)
Theorem review_code_terminates code requirements max_iterations st :
  1 ≤ max_iterations →
  ∃ o st' calls,
    _review_code code requirements max_iterations st = (o, st')
    ∧ o ≠ OutOfFuel
    ∧ added_calls st st' calls
    ∧ Z.of_nat (calls_to CodeReviewer calls) ≤ max_iterations
    ∧ Z.of_nat (calls_to SoftwareDeveloper calls) ≤ max_iterations - 1.
Proof.
  intros Hmax. unfold _review_code.
  destruct (review_loop (Z.to_nat max_iterations) max_iterations code 0 None st)
    as [o st'] eqn:Hrun.
  apply review_loop_bounded in Hrun as [Ho [_ [calls [Hcalls [Hrev [Hdev _]]]]]].
  exists o, st', calls. split_and!; [done|apply Ho|done|..]; lia.
Qed.

(** C2.  The parse block never raises.  Every text is of one of two
    kinds.  Either it is [pre { mid } post] with no opening brace in [pre]
    and no closing brace in [post]: then the span that is decoded is
    [{ mid }], from the first opening brace to the last closing brace,
    whatever braces [mid] holds, and the result is the decoded value, or the
    fallback when decoding raises.  Or it has no opening brace followed by a
    closing brace: then the result is the fallback. *)
Theorem extract_structured_spec (text : string) (fallback : json) :
  (∃ v, extract_structured text fallback = Ok v)
  ∧ (∀ pre mid post,
       text = pre +:+ String open_brace (mid +:+ String close_brace post) →
       occurs open_brace pre = false →
       occurs close_brace post = false →
       re_search text
       = Some (String open_brace (mid +:+ String close_brace EmptyString))
       ∧ extract_structured text fallback
         = Ok match json_loads
                      (String open_brace (mid +:+ String close_brace EmptyString))
              with
              | Ok v => v
              | Err _ => fallback
              end)
  ∧ ((∀ pre mid post,
        text ≠ pre +:+ String open_brace (mid +:+ String close_brace post)) →
     re_search text = None ∧ extract_structured text fallback = Ok fallback)
  ∧ ((∃ pre mid post,
        text = pre +:+ String open_brace (mid +:+ String close_brace post)
        ∧ occurs open_brace pre = false
        ∧ occurs close_brace post = false)
     ∨ (∀ pre mid post,
          text ≠ pre +:+ String open_brace (mid +:+ String close_brace post))).
Proof.
  split_and!.
  - rewrite extract_structured_cases. eauto.
  - intros pre mid post -> Hpre Hpost.
    rewrite extract_structured_cases, re_search_span by done. done.
  - intros Hno. rewrite extract_structured_cases, re_search_no_span by done.
    done.
  - destruct (re_search text) as [span|] eqn:Hspan.
    + left. by eapply re_search_inv.
    + right. intros pre mid post ->. by apply re_search_found in Hspan.
Qed.

(** C4.  When the first review is answered and the answer parses to a
    verdict whose status is "approved", [_review_code] returns that verdict
    with the code it was given, and the review is the only call it made: the
    Developer is not invoked. *)
Theorem review_code_first_approved code requirements max_iterations st text w' v :
  1 ≤ max_iterations →
  responds CodeReviewer (review_message code) 1 (user_proxy st) text w' →
  extract_structured text fallback_verdict = Ok v →
  py_get v "status" = Ok (Some (JStr "approved")) →
  ∃ st',
    _review_code code requirements max_iterations st = (Return (v, code), st')
    ∧ added_calls st st'
        [{| target := CodeReviewer; message := review_message code; after := w' |}]
    ∧ calls_to SoftwareDeveloper (invocations st')
      = calls_to SoftwareDeveloper (invocations st).
Proof.
  intros Hmax Hresp Hparse Hstatus.
  exists (after_call st CodeReviewer (review_message code) w').
  unfold _review_code.
  destruct (Z.to_nat max_iterations) as [|fuel] eqn:Hfuel; [lia|].
  assert (0 < max_iterations) as Hlt by lia.
  rewrite (review_loop_step _ _ _ _ _ _ _ _ _ _ Hlt Hresp Hparse Hstatus).
  split_and!; [done|done|].
  cbn [after_call invocations]. by rewrite calls_to_cons.
Qed.

(** C5.  In any pass through the loop body, when the review is answered by a
    text with no brace span, or with a span that does not decode, the loop
    returns at once the fallback verdict (status "approved", score 8) with
    the current code; the review is the only call of the pass, so no
    revision is requested. *)
Theorem malformed_review_fails_open fuel max_iterations code iteration rr st text w' :
  iteration < max_iterations →
  responds CodeReviewer (review_message code) 1 (user_proxy st) text w' →
  (re_search text = None
   ∨ ∃ span e, re_search text = Some span ∧ json_loads span = Err e) →
  ∃ st',
    review_loop (S fuel) max_iterations code iteration rr st
    = (Return (JObj [("status", JStr "approved"); ("score", JInt 8)], code), st')
    ∧ added_calls st st'
        [{| target := CodeReviewer; message := review_message code; after := w' |}]
    ∧ calls_to SoftwareDeveloper (invocations st')
      = calls_to SoftwareDeveloper (invocations st).
Proof.
  intros Hlt Hresp Hbad.
  exists (after_call st CodeReviewer (review_message code) w').
  assert (extract_structured text fallback_verdict = Ok fallback_verdict) as Hparse.
  { rewrite extract_structured_cases.
    destruct Hbad as [->|[span [e [-> ->]]]]; done. }
  rewrite (review_loop_step _ _ _ _ _ _ _ _ _ (Some (JStr "approved"))
             Hlt Hresp Hparse eq_refl).
  split_and!; [done|done|].
  cbn [after_call invocations]. by rewrite calls_to_cons.
Qed.

(** C8.  When the Analyst's answer has no brace span, or a span that does
    not decode, [_analyze_requirements] returns the fallback record, whose
    description is the requirement it was given. *)
Theorem analyze_requirements_fallback requirement st text w' :
  responds RequirementAnalyst (analyze_message requirement) 2 (user_proxy st)
    text w' →
  (re_search text = None
   ∨ ∃ span e, re_search text = Some span ∧ json_loads span = Err e) →
  fst (_analyze_requirements requirement st)
  = Return (JObj [("title", JStr "Software Project");
                  ("description", JStr requirement);
                  ("features", JArr [JStr "Core functionality"]);
                  ("constraints", JArr [JStr "Python implementation"]);
                  ("edge_cases", JArr [])]).
Proof.
  intros Hresp Hbad. unfold _analyze_requirements.
  rewrite (ask_bind _ _ _ _ _ _ _ Hresp), extract_structured_cases.
  destruct Hbad as [->|[span [e [-> ->]]]]; done.
Qed.

(** C9.  With a budget [max_iterations <= 0] the loop body is never entered:
    [_review_code] makes no call at all, leaves the instance as it was, and
    raises because [review_result] is still unbound at the final
    [return]. *)
Theorem review_code_nonpositive_budget code requirements max_iterations st :
  max_iterations ≤ 0 →
  _review_code code requirements max_iterations st = (Raise UnboundLocalError, st).
Proof.
  intros Hmax. unfold _review_code. by rewrite review_loop_exit by lia.
Qed.

Lemma is_approved_true (x : option json) :
  is_approved x = true ↔ x = Some (JStr "approved").
Proof.
  destruct x as [[]|]; simpl; try (split; [discriminate|congruence]).
  rewrite String.eqb_eq. split; congruence.
Qed.

(** C10.  In a pass with budget left for a revision, when the review is
    answered by a text whose span decodes to an object whose status is not
    the string "approved" (an object without a status, such as the empty
    one, included), the loop does not return: its next action is the
    revision request to the Developer, carrying the raw review text and the
    current code, and it goes on with the Developer's answer as the current
    code.  Whatever happens afterwards, that request is in the log right
    after the review. *)
Theorem unapproved_object_drives_revision
    fuel max_iterations code iteration rr st text w' span members :
  iteration < max_iterations - 1 →
  responds CodeReviewer (review_message code) 1 (user_proxy st) text w' →
  re_search text = Some span →
  json_loads span = Ok (JObj members) →
  dict_get "status" members ≠ Some (JStr "approved") →
  review_loop (S fuel) max_iterations code iteration rr st
  = ((chat SoftwareDeveloper (improve_message text code) 1;;
      last_content SoftwareDeveloper) ≫= λ code',
     review_loop fuel max_iterations code' (iteration + 1) (Some (JObj members)))
      (after_call st CodeReviewer (review_message code) w')
  ∧ ∀ o st',
      review_loop (S fuel) max_iterations code iteration rr st = (o, st') →
      ∃ later w'',
        added_calls st st'
          (later ++
           [{| target := SoftwareDeveloper;
               message := improve_message text code; after := w'' |};
            {| target := CodeReviewer;
               message := review_message code; after := w' |}])%list.
Proof.
  intros Hbudget Hresp Hspan Hloads Hstatus.
  assert (extract_structured text fallback_verdict = Ok (JObj members)) as Hparse
    by (by rewrite extract_structured_cases, Hspan, Hloads).
  assert (is_approved (dict_get "status" members) = false) as Hno.
  { destruct (is_approved _) eqn:Hyes; [|done]. by apply is_approved_true in Hyes. }
  assert (iteration < max_iterations) as Hlt by lia.
  rewrite (review_loop_step _ _ _ _ _ _ _ _ _ _ Hlt Hresp Hparse eq_refl), Hno.
  destruct (Z.ltb_spec iteration (max_iterations - 1)); [|lia].
  split; [done|]. intros o st' Hrun.
  apply bind_inv in Hrun as [(code' & s1 & Hask & Hrest)|[(e & Hask & ->)|[Hask _]]];
    apply ask_inv in Hask as [Ho [w'' [Hs _]]]; [|subst st'|done].
  - subst s1.
    apply review_loop_bounded in Hrest as [_ [_ [later [Hlater _]]]].
    exists later, w''. unfold added_calls in *. by rewrite Hlater, <- app_assoc.
  - by exists [], w''.
Qed.

(** ** A Reviewer that never approves *)

Section AlwaysRejected.
Variable max_iterations : Z.
Hypothesis reviewer_rejects : ∀ msg w,
  ∃ text w' members,
    responds CodeReviewer msg 1 w text w'
    ∧ extract_structured text fallback_verdict = Ok (JObj members)
    ∧ dict_get "status" members = Some (JStr "needs_revision").
Hypothesis developer_answers : ∀ msg w,
  ∃ code' w', responds SoftwareDeveloper msg 1 w code' w'.

Lemma always_rejected_loop fuel code iteration rr st :
  iteration < max_iterations →
  Z.of_nat fuel = max_iterations - iteration →
  ∃ verdict final st' last_review earlier,
    review_loop fuel max_iterations code iteration rr st
    = (Return (verdict, final), st')
    ∧ py_get verdict "status" = Ok (Some (JStr "needs_revision"))
    ∧ added_calls st st' (last_review :: earlier)
    ∧ Z.of_nat (calls_to CodeReviewer (last_review :: earlier))
      = max_iterations - iteration
    ∧ Z.of_nat (calls_to SoftwareDeveloper (last_review :: earlier))
      = max_iterations - iteration - 1
    ∧ target last_review = CodeReviewer
    ∧ message last_review = review_message final
    ∧ (∃ text, response last_review = Some text
               ∧ extract_structured text fallback_verdict = Ok verdict)
    ∧ match earlier with
      | [] => final = code
      | revision :: _ =>
          target revision = SoftwareDeveloper ∧ response revision = Some final
      end.
Proof.
  revert code iteration rr st.
  induction fuel as [|fuel IH]; intros code iteration rr st Hlt Hfuel; [lia|].
  destruct (reviewer_rejects (review_message code) (user_proxy st))
    as (text & w' & members & Hresp & Hparse & Hstatus).
  rewrite (review_loop_step _ _ _ _ _ _ _ _ _ _ Hlt Hresp Hparse eq_refl), Hstatus.
  cbn [is_approved]. change (String.eqb "needs_revision" "approved") with false.
  cbv iota.
  set (s1 := after_call st CodeReviewer (review_message code) w').
  set (x1 := {| target := CodeReviewer; message := review_message code;
                after := w' |}).
  rewrite bind_run.
  destruct (Z.ltb_spec iteration (max_iterations - 1)) as [Hbudget|Hlast].
  - destruct (developer_answers (improve_message text code) (user_proxy s1))
      as (code' & w'' & Hresp').
    rewrite (ask_ret _ _ _ _ _ _ Hresp').
    set (x2 := {| target := SoftwareDeveloper;
                  message := improve_message text code; after := w'' |}).
    destruct (IH code' (iteration + 1) (Some (JObj members))
                (after_call s1 SoftwareDeveloper (improve_message text code) w''))
      as (verdict & final & st' & last_review & earlier & -> & Hv & Hcalls
          & Hrev & Hdev & Htarget & Hmsg & Htext & Hfinal); [lia..|].
    exists verdict, final, st', last_review, (earlier ++ [x2; x1])%list.
    split_and!; try done.
    + unfold added_calls in *. rewrite Hcalls. cbn [after_call invocations app].
      by rewrite <- app_assoc.
    + rewrite app_comm_cons, calls_to_app.
      change (calls_to CodeReviewer [x2; x1]) with 1%nat. lia.
    + rewrite app_comm_cons, calls_to_app.
      change (calls_to SoftwareDeveloper [x2; x1]) with 1%nat. lia.
    + destruct earlier as [|revision earlier]; [|done].
      subst final. split; [done|]. by destruct Hresp' as [_ ?].
  - cbn [mret M_ret]. rewrite review_loop_exit by lia.
    exists (JObj members), code, s1, x1, [].
    split_and!; try done.
    + cbn [py_get]. by rewrite Hstatus.
    + change (calls_to CodeReviewer [x1]) with 1%nat. lia.
    + change (calls_to SoftwareDeveloper [x1]) with 0%nat. lia.
    + exists text. split; [|done]. by destruct Hresp as [_ ?].
Qed.

(** C3.  When every review is answered by a verdict whose status is
    "needs_revision" (and every revision request is answered), then for
    every budget [max_iterations >= 1] the loop uses up its budget:
    [max_iterations] reviews and [max_iterations - 1] revisions.  Its last
    call is a review; it returns the verdict parsed from the answer to that
    review, and the code that review was sent.  That code is the answer to
    the last revision request when there was one, and the code passed in
    only when there was none. *)
Theorem always_rejected_exhausts_budget code requirements st :
  1 ≤ max_iterations →
  ∃ verdict final st' last_review earlier,
    _review_code code requirements max_iterations st
    = (Return (verdict, final), st')
    ∧ py_get verdict "status" = Ok (Some (JStr "needs_revision"))
    ∧ added_calls st st' (last_review :: earlier)
    ∧ Z.of_nat (calls_to CodeReviewer (last_review :: earlier)) = max_iterations
    ∧ Z.of_nat (calls_to SoftwareDeveloper (last_review :: earlier))
      = max_iterations - 1
    ∧ target last_review = CodeReviewer
    ∧ message last_review = review_message final
    ∧ (∃ text, response last_review = Some text
               ∧ extract_structured text fallback_verdict = Ok verdict)
    ∧ match earlier with
      | [] => final = code
      | revision :: _ =>
          target revision = SoftwareDeveloper ∧ response revision = Some final
      end.
Proof.
  intros Hmax. unfold _review_code.
  destruct (always_rejected_loop (Z.to_nat max_iterations) code 0 None st)
    as (verdict & final & st' & last_review & earlier & Hrun & Hv & Hcalls
        & Hrev & Hdev & Htarget & Hmsg & Htext & Hfinal); [lia..|].
  exists verdict, final, st', last_review, earlier.
  split_and!; try done; lia.
Qed.

End AlwaysRejected.

(** ** The pipeline *)

Lemma try_catch_reraise {A} (m : M World A) st :
  try_catch m (λ e, raise e) st = m st.
Proof. unfold try_catch, raise. by destruct (m st) as [[]]. Qed.

Lemma set_result_bind {B} key v (k : unit → M World B) st :
  (set_result key v ≫= k) st = k () (stored key v st).
Proof. reflexivity. Qed.

(** The stages other than the review touch the instance only through their
    one call. *)
Lemma analyze_requirements_inv requirement st o st' :
  _analyze_requirements requirement st = (o, st') →
  o ≠ OutOfFuel ∧ results st' = results st.
Proof.
  unfold _analyze_requirements. rewrite bind_run.
  destruct (chat _ _ _ st) as [o1 s1] eqn:Hchat.
  apply chat_inv in Hchat as [w [-> Ho1]].
  destruct o1 as [[]|e|]; [|by intros [= <- <-]|done].
  rewrite bind_run. destruct (last_content _ _) as [o2 s2] eqn:Hlast.
  apply last_content_inv in Hlast as [-> Ho2].
  destruct o2 as [text|e|]; [|by intros [= <- <-]|done].
  rewrite extract_structured_cases. by intros [= <- <-].
Qed.

Lemma ask_results a msg t st (o : outcome string) st' :
  (chat a msg t ≫= λ _, last_content a) st = (o, st') →
  o ≠ OutOfFuel ∧ results st' = results st.
Proof. intros [Ho [w [-> _]]]%ask_inv. done. Qed.

Lemma generate_deployment_inv code requirements st o st' :
  _generate_deployment code requirements st = (o, st') →
  o ≠ OutOfFuel ∧ results st' = results st.
Proof.
  unfold _generate_deployment. rewrite bind_run.
  destruct (chat _ _ _ st) as [o1 s1] eqn:Hchat.
  apply chat_inv in Hchat as [w [-> Ho1]].
  destruct o1 as [[]|e|]; [|by intros [= <- <-]|done].
  rewrite bind_run. destruct (last_content _ _) as [o2 s2] eqn:Hlast.
  apply last_content_inv in Hlast as [-> Ho2].
  destruct o2 as [text|e|]; [|by intros [= <- <-]|done].
  by intros [= <- <-].
Qed.

Lemma review_code_inv code requirements st o st' :
  _review_code code requirements 3 st = (o, st') →
  o ≠ OutOfFuel ∧ results st' = results st.
Proof.
  unfold _review_code.
  intros [Ho [Hres _]]%review_loop_bounded. split; [apply Ho; lia|done].
Qed.

Lemma generate_code_inv requirements st o st' :
  _generate_code requirements st = (o, st') →
  o ≠ OutOfFuel ∧ results st' = results st.
Proof. apply ask_results. Qed.

Lemma generate_documentation_inv code requirements st o st' :
  _generate_documentation code requirements st = (o, st') →
  o ≠ OutOfFuel ∧ results st' = results st.
Proof. apply ask_results. Qed.

Lemma generate_tests_inv code requirements st o st' :
  _generate_tests code requirements st = (o, st') →
  o ≠ OutOfFuel ∧ results st' = results st.
Proof. apply ask_results. Qed.

(** C7.  [process_requirement] raises [e] and leaves the instance [st_fail]
    exactly when one of its stages raises [e] and leaves [st_fail], every
    stage before it having returned.  The failing stage was started with the
    outputs of all earlier stages already stored, no later stage runs, and
    [self.results] in [st_fail] is the mapping found at the start with
    those outputs written over it: nothing is removed on the way out. *)
Theorem process_requirement_aborts requirement st e st_fail :
  process_requirement requirement st = (Raise e, st_fail)
  ↔ aborted requirement st e st_fail.
Proof.
  unfold process_requirement. rewrite try_catch_reraise. split.
  - intros Hrun. rewrite bind_run in Hrun.
    destruct (_analyze_requirements requirement st) as [o1 s1] eqn:H1.
    destruct (analyze_requirements_inv _ _ _ _ H1) as [Ho1 Hr1].
    destruct o1 as [req|e1|]; [|injection Hrun as <- <-|done].
    2: { by apply aborted_in_analysis. }
    rewrite set_result_bind, bind_run in Hrun.
    destruct (_generate_code req _) as [o2 s2] eqn:H2.
    destruct (generate_code_inv _ _ _ _ H2) as [Ho2 Hr2].
    cbn [stored results] in Hr2. rewrite Hr1 in Hr2.
    destruct o2 as [code|e2|]; [|injection Hrun as <- <-|done].
    2: { by eapply aborted_in_generation. }
    rewrite set_result_bind, bind_run in Hrun.
    destruct (_review_code code req 3 _) as [o3 s3] eqn:H3.
    destruct (review_code_inv _ _ _ _ _ H3) as [Ho3 Hr3].
    cbn [stored results] in Hr3. rewrite Hr2 in Hr3.
    destruct o3 as [[review final]|e3|]; [|injection Hrun as <- <-|done].
    2: { by eapply aborted_in_review. }
    rewrite !set_result_bind, bind_run in Hrun.
    destruct (_generate_documentation final req _) as [o4 s4] eqn:H4.
    destruct (generate_documentation_inv _ _ _ _ _ H4) as [Ho4 Hr4].
    cbn [stored results] in Hr4. rewrite Hr3 in Hr4.
    destruct o4 as [doc|e4|]; [|injection Hrun as <- <-|done].
    2: { by eapply aborted_in_documentation. }
    rewrite set_result_bind, bind_run in Hrun.
    destruct (_generate_tests final req _) as [o5 s5] eqn:H5.
    destruct (generate_tests_inv _ _ _ _ _ H5) as [Ho5 Hr5].
    cbn [stored results] in Hr5. rewrite Hr4 in Hr5.
    destruct o5 as [tests|e5|]; [|injection Hrun as <- <-|done].
    2: { by eapply aborted_in_tests. }
    rewrite set_result_bind, bind_run in Hrun.
    destruct (_generate_deployment final req _) as [o6 s6] eqn:H6.
    destruct (generate_deployment_inv _ _ _ _ _ H6) as [Ho6 Hr6].
    cbn [stored results] in Hr6. rewrite Hr5 in Hr6.
    destruct o6 as [deploy|e6|]; [done|injection Hrun as <- <-|done].
    by eapply aborted_in_deployment.
  - intros [H1 _|req s1 H1 H2 _|req s1 code s2 H1 H2 H3 _
           |req s1 code s2 review final s3 H1 H2 H3 H4 _
           |req s1 code s2 review final s3 doc s4 H1 H2 H3 H4 H5 _
           |req s1 code s2 review final s3 doc s4 tests s5 H1 H2 H3 H4 H5 H6 _];
      rewrite bind_run, H1; [done|..];
      rewrite set_result_bind, bind_run, H2; [done|..];
      rewrite set_result_bind, bind_run, H3; [done|..];
      rewrite !set_result_bind, bind_run, H4; [done|..];
      rewrite set_result_bind, bind_run, H5; [done|];
      by rewrite set_result_bind, bind_run, H6.
Qed.

(** ** A run in which every role invocation succeeds *)

(** C6 (amended).  When all six role invocations succeed, that is, when each
    of the six methods returns, started on the instance the earlier ones
    left with their outputs stored, and the mapping held no key other
    than these seven before the call, [process_requirement] returns
    [self.results] with exactly the keys requirements, code, review,
    final_code, documentation, tests and deployment, each mapped to what its
    role returned.  No value is checked on the way: the deployment entry is
    never empty, and the seven values are all non-empty exactly when the
    other six outputs are. *)
Theorem process_requirement_complete
    requirement st req s1 code s2 verdict final s3 doc s4 tests s5
    deployment s6 :
  dom (results st) ⊆ pipeline_keys →
  _analyze_requirements requirement st = (Return req, s1) →
  _generate_code req (stored "requirements" req s1) = (Return code, s2) →
  _review_code code req 3 (stored "code" (JStr code) s2)
  = (Return (verdict, final), s3) →
  _generate_documentation final req
    (stored "final_code" (JStr final) (stored "review" verdict s3))
  = (Return doc, s4) →
  _generate_tests final req (stored "documentation" (JStr doc) s4)
  = (Return tests, s5) →
  _generate_deployment final req (stored "tests" (JStr tests) s5)
  = (Return deployment, s6) →
  ∃ r,
    process_requirement requirement st
    = (Return r, stored "deployment" deployment s6)
    ∧ dom r = pipeline_keys
    ∧ r !! "requirements" = Some req
    ∧ r !! "code" = Some (JStr code)
    ∧ r !! "review" = Some verdict
    ∧ r !! "final_code" = Some (JStr final)
    ∧ r !! "documentation" = Some (JStr doc)
    ∧ r !! "tests" = Some (JStr tests)
    ∧ r !! "deployment" = Some deployment
    ∧ nonempty deployment = true
    ∧ ((∀ k v, r !! k = Some v → nonempty v = true)
       ↔ nonempty req = true ∧ code ≠ "" ∧ nonempty verdict = true
         ∧ final ≠ "" ∧ doc ≠ "" ∧ tests ≠ "").
Proof.
  intros Hdom H1 H2 H3 H4 H5 H6.
  destruct (analyze_requirements_inv _ _ _ _ H1) as [_ R1].
  destruct (generate_code_inv _ _ _ _ H2) as [_ R2].
  destruct (review_code_inv _ _ _ _ _ H3) as [_ R3].
  destruct (generate_documentation_inv _ _ _ _ _ H4) as [_ R4].
  destruct (generate_tests_inv _ _ _ _ _ H5) as [_ R5].
  destruct (generate_deployment_inv _ _ _ _ _ H6) as [_ R6].
  assert (∃ script timestamp,
            deployment
            = JObj [("script", JStr script); ("timestamp", JStr timestamp)])
    as (script & timestamp & Hdeployment).
  { unfold _generate_deployment in H6. rewrite bind_run in H6.
    destruct (chat _ _ _ _) as [[[]|?|] sa]; [|done..].
    rewrite bind_run in H6.
    destruct (last_content _ _) as [[text|?|] sb]; [|done..].
    cbn in H6. injection H6 as <- _. eauto. }
  assert (∀ s, nonempty (JStr s) = true ↔ s ≠ "") as Hstr.
  { intros s. cbn [nonempty]. by destruct (String.eqb_spec s ""). }
  eexists. split.
  { unfold process_requirement.
    rewrite try_catch_reraise, bind_run, H1.
    rewrite set_result_bind, bind_run, H2.
    rewrite set_result_bind, bind_run, H3.
    rewrite !set_result_bind, bind_run, H4.
    rewrite set_result_bind, bind_run, H5.
    rewrite set_result_bind, bind_run, H6.
    rewrite set_result_bind. reflexivity. }
  cbn [stored results] in *. rewrite R6, R5, R4, R3, R2, R1.
  split; [rewrite !dom_insert_L; unfold pipeline_keys in *; set_solver|].
  split_and!.
  - by repeat (rewrite lookup_insert_ne by done); rewrite lookup_insert_eq.
  - by repeat (rewrite lookup_insert_ne by done); rewrite lookup_insert_eq.
  - by repeat (rewrite lookup_insert_ne by done); rewrite lookup_insert_eq.
  - by repeat (rewrite lookup_insert_ne by done); rewrite lookup_insert_eq.
  - by repeat (rewrite lookup_insert_ne by done); rewrite lookup_insert_eq.
  - by repeat (rewrite lookup_insert_ne by done); rewrite lookup_insert_eq.
  - by rewrite lookup_insert_eq.
  - by rewrite Hdeployment.
  - split.
    + intros Hvalues. rewrite <- !Hstr.
      split_and!;
        [ apply (Hvalues "requirements") | apply (Hvalues "code")
        | apply (Hvalues "review") | apply (Hvalues "final_code")
        | apply (Hvalues "documentation") | apply (Hvalues "tests") ];
        by repeat (rewrite lookup_insert_ne by done); rewrite lookup_insert_eq.
    + intros (Hreq & Hcode%Hstr & Hverdict & Hfinal%Hstr & Hdoc%Hstr
              & Htests%Hstr) k v.
      rewrite !lookup_insert_Some.
      intros [[_ <-]|[? [[_ <-]|[? [[_ <-]|[? [[_ <-]|[? [[_ <-]|[? [[_ <-]|[?
                [[_ <-]|[? Hold]]]]]]]]]]]]]]; try done.
      * by rewrite Hdeployment.
      * assert (k ∈ pipeline_keys) as Hk by (apply Hdom, elem_of_dom; eauto).
        unfold pipeline_keys in Hk. set_solver.
Qed.

End Properties.

(** * The properties on concrete runs *)

Lemma review_code_terminates_witness :
  ∃ o st' calls,
    _review_code "def test(): pass" (JObj []) 2
      (Scenario.fresh Scenario.rejected_twice) = (o, st')
    ∧ o ≠ OutOfFuel
    ∧ added_calls (Scenario.fresh Scenario.rejected_twice) st' calls
    ∧ Z.of_nat (calls_to CodeReviewer calls) ≤ 2
    ∧ Z.of_nat (calls_to SoftwareDeveloper calls) ≤ 2 - 1.
Proof. apply review_code_terminates. lia. Defined.

(** Two objects in one answer: the span runs from the first opening brace
    to the last closing brace and does not decode. *)
Lemma extract_structured_spec_witness :
  re_search "first {} then {} end" = Some "{} then {}"
  ∧ extract_structured (Ext := Scenario.scripted) "first {} then {} end" JNull
    = Ok JNull.
Proof.
  destruct (extract_structured_spec (Ext := Scenario.scripted)
              "first {} then {} end" JNull) as (_ & Hspan & _ & _).
  apply (Hspan "first " "} then {" " end"); reflexivity.
Defined.

Lemma review_code_first_approved_witness :
  ∃ st',
    _review_code "def add(a,b): return a+b" (JObj []) 3
      (Scenario.fresh Scenario.calculator)
    = (Return (JObj [("status", JStr "approved"); ("score", JInt 9)],
               "def add(a,b): return a+b"), st')
    ∧ calls_to SoftwareDeveloper (invocations st') = 0%nat.
Proof.
  edestruct (review_code_first_approved (Ext := Scenario.scripted)
               "def add(a,b): return a+b" (JObj []) 3
               (Scenario.fresh Scenario.calculator))
    as (st' & Hrun & _ & Hdev).
  - lia.
  - split; reflexivity.
  - vm_compute. reflexivity.
  - reflexivity.
  - exists st'. split; [exact Hrun|]. rewrite Hdev. reflexivity.
Defined.

Lemma malformed_review_fails_open_witness :
  ∃ st',
    _review_code "def test(): pass" (JObj []) 3
      (Scenario.fresh Scenario.truncated_review)
    = (Return (JObj [("status", JStr "approved"); ("score", JInt 8)],
               "def test(): pass"), st')
    ∧ calls_to SoftwareDeveloper (invocations st') = 0%nat.
Proof.
  edestruct (malformed_review_fails_open (Ext := Scenario.scripted)
               2 3 "def test(): pass" 0 None
               (Scenario.fresh Scenario.truncated_review) "{incomplete json")
    as (st' & Hrun & _ & Hdev).
  - lia.
  - split; reflexivity.
  - left. reflexivity.
  - exists st'. split; [exact Hrun|]. rewrite Hdev. reflexivity.
Defined.

Lemma analyze_requirements_fallback_witness :
  fst (_analyze_requirements "test requirement"
         (Scenario.fresh Scenario.prose_analysis))
  = Return (JObj [("title", JStr "Software Project");
                  ("description", JStr "test requirement");
                  ("features", JArr [JStr "Core functionality"]);
                  ("constraints", JArr [JStr "Python implementation"]);
                  ("edge_cases", JArr [])]).
Proof.
  eapply (analyze_requirements_fallback (Ext := Scenario.scripted)
            "test requirement" (Scenario.fresh Scenario.prose_analysis)
            "This is not JSON").
  - split; reflexivity.
  - left. reflexivity.
Defined.

Lemma review_code_nonpositive_budget_witness :
  _review_code "def test(): pass" (JObj []) 0
    (Scenario.fresh Scenario.calculator)
  = (Raise UnboundLocalError, Scenario.fresh Scenario.calculator).
Proof. apply review_code_nonpositive_budget. lia. Defined.

(** The empty object is no approval: the Developer is asked for a revision
    and the revised code is what the second review approves. *)
Lemma unapproved_object_drives_revision_witness :
  ∃ later w' w'',
    added_calls (Scenario.fresh Scenario.empty_then_approved)
      (snd (_review_code "def test(): pass" (JObj []) 3
              (Scenario.fresh Scenario.empty_then_approved)))
      (later ++
       [{| target := SoftwareDeveloper;
           message := improve_message "{}" "def test(): pass"; after := w'' |};
        {| target := CodeReviewer;
           message := review_message "def test(): pass"; after := w' |}])%list.
Proof.
  edestruct (unapproved_object_drives_revision (Ext := Scenario.scripted)
               2 3 "def test(): pass" 0 None
               (Scenario.fresh Scenario.empty_then_approved) "{}"
               (snd (Scenario.scripted_chat CodeReviewer
                       (review_message "def test(): pass") 1
                       (user_proxy (Scenario.fresh Scenario.empty_then_approved))))
               "{}" [])
    as [_ Hlog].
  - lia.
  - split; reflexivity.
  - reflexivity.
  - reflexivity.
  - discriminate.
  - edestruct Hlog as (later & w'' & Hcalls); [apply surjective_pairing|].
    eexists later, _, w''. exact Hcalls.
Defined.

Lemma always_rejected_exhausts_budget_witness :
  ∃ verdict final st' last_review earlier,
    _review_code (Ext := Scenario.canned Scenario.stubborn)
      "code" (JObj []) 2 Scenario.patched
    = (Return (verdict, final), st')
    ∧ py_get verdict "status" = Ok (Some (JStr "needs_revision"))
    ∧ added_calls Scenario.patched st' (last_review :: earlier)
    ∧ Z.of_nat (calls_to CodeReviewer (last_review :: earlier)) = 2
    ∧ Z.of_nat (calls_to SoftwareDeveloper (last_review :: earlier)) = 2 - 1
    ∧ target last_review = CodeReviewer
    ∧ message last_review = review_message final
    ∧ (∃ text,
         response (Ext := Scenario.canned Scenario.stubborn) last_review
         = Some text
         ∧ extract_structured (Ext := Scenario.canned Scenario.stubborn)
             text fallback_verdict = Ok verdict)
    ∧ match earlier with
      | [] => final = "code"
      | revision :: _ =>
          target revision = SoftwareDeveloper
          ∧ response (Ext := Scenario.canned Scenario.stubborn) revision
            = Some final
      end.
Proof.
  apply (always_rejected_exhausts_budget (Ext := Scenario.canned Scenario.stubborn)).
  - intros msg w.
    exists Scenario.rejecting_review, w,
      [("status", JStr "needs_revision"); ("score", JInt 5)].
    split; [split; reflexivity|]. split; [vm_compute|]; reflexivity.
  - intros msg w. exists "improved code", w. split; reflexivity.
  - lia.
Defined.

(** The Technical Writer cannot be reached: the exception comes out of
    [process_requirement], and the four outputs stored before are still in
    [self.results]. *)
Lemma process_requirement_aborts_witness :
  ∃ st_fail,
    aborted "Create a calculator application"
      (Scenario.fresh Scenario.writer_down)
      (OtherError "TransportError") st_fail
    ∧ results st_fail !! "code" = Some (JStr "def add(a,b): return a+b")
    ∧ results st_fail !! "final_code" = Some (JStr "def add(a,b): return a+b")
    ∧ results st_fail !! "documentation" = None.
Proof.
  eexists. split; [|split_and!].
  - apply (process_requirement_aborts (Ext := Scenario.scripted)).
    vm_compute. reflexivity.
  - vm_compute. reflexivity.
  - vm_compute. reflexivity.
  - vm_compute. reflexivity.
Defined.

(** Runs a stage on a concrete instance. *)
Ltac run_stage :=
  match goal with
  | |- ?run = _ =>
      let v := eval vm_compute in run in
      apply (eq_trans (y := v)); [vm_compute; reflexivity|reflexivity]
  end.

(** Two runs in which all six role invocations succeed.  In the calculator
    run behind a patched [initiate_chat] the mapping holds all seven keys,
    none empty.  In the run whose Analyst answers with the empty object the
    mapping holds all seven keys, and not all of its values are non-empty. *)
Lemma process_requirement_complete_witness :
  (∃ r st',
     process_requirement (Ext := Scenario.canned Scenario.cooperative)
       "Create a calculator application" Scenario.patched
     = (Return r, st')
     ∧ dom r = pipeline_keys
     ∧ ∀ k v, r !! k = Some v → nonempty v = true)
  ∧ ∃ r st',
      process_requirement (Ext := Scenario.scripted)
        "Create a calculator application"
        (Scenario.fresh Scenario.empty_analysis)
      = (Return r, st')
      ∧ dom r = pipeline_keys
      ∧ ¬ ∀ k v, r !! k = Some v → nonempty v = true.
Proof.
  split.
  - edestruct (process_requirement_complete
                 (Ext := Scenario.canned Scenario.cooperative)
                 "Create a calculator application" Scenario.patched)
      as (r & Hrun & Hdom & _ & _ & _ & _ & _ & _ & _ & _ & Hvalues).
    + cbn [Scenario.patched results]. rewrite dom_empty_L.
      apply empty_subseteq.
    + run_stage.
    + run_stage.
    + run_stage.
    + run_stage.
    + run_stage.
    + run_stage.
    + exists r. eexists. split; [exact Hrun|]. split; [exact Hdom|].
      apply Hvalues. repeat split; discriminate.
  - edestruct (process_requirement_complete (Ext := Scenario.scripted)
                 "Create a calculator application"
                 (Scenario.fresh Scenario.empty_analysis))
      as (r & Hrun & Hdom & _ & _ & _ & _ & _ & _ & _ & _ & Hvalues).
    + cbn [Scenario.fresh results]. rewrite dom_empty_L.
      apply empty_subseteq.
    + run_stage.
    + run_stage.
    + run_stage.
    + run_stage.
    + run_stage.
    + run_stage.
    + exists r. eexists. split; [exact Hrun|]. split; [exact Hdom|].
      intros Hall. apply Hvalues in Hall as [Hreq _]. discriminate Hreq.
Defined.

(** C6, as stated, fails: every one of the six invocations is answered, the
    Analyst's answer is the empty object, and the value stored under
    requirements is empty. *)
Lemma process_requirement_empty_value :
  ∃ r st',
    process_requirement "Create a calculator application"
      (Scenario.fresh Scenario.empty_analysis) = (Return r, st')
    ∧ target <$> invocations st'
      = [DevOpsEngineer; QAEngineer; TechnicalWriter; CodeReviewer;
         SoftwareDeveloper; RequirementAnalyst]
    ∧ Forall (λ x, is_Some (response x)) (invocations st')
    ∧ dom r = pipeline_keys
    ∧ r !! "requirements" = Some (JObj [])
    ∧ nonempty (JObj []) = false.
Proof.
  eexists _, _. split; [vm_compute; reflexivity|].
  split; [reflexivity|]. split; [by repeat constructor|].
  split; [by vm_compute|]. split; reflexivity.
Qed.

(** ** Two runs end to end *)

(** The calculator run: the Reviewer approves at the first review, the code
    stored as final is the code generated, and the Developer was called once
    only, for the generation. *)
Example calculator_run :
  ∃ r st',
    process_requirement "Create a calculator application"
      (Scenario.fresh Scenario.calculator) = (Return r, st')
    ∧ r !! "final_code" = Some (JStr "def add(a,b): return a+b")
    ∧ r !! "review"
      = Some (JObj [("status", JStr "approved"); ("score", JInt 9)])
    ∧ calls_to SoftwareDeveloper (invocations st') = 1%nat
    ∧ calls_to CodeReviewer (invocations st') = 1%nat.
Proof.
  eexists _, _. split; [vm_compute; reflexivity|].
  split_and!; reflexivity.
Qed.

(** A Reviewer that always rejects, with a budget of 2: two reviews, one
    revision, and the rejecting verdict comes back with the revised code. *)
Example rejected_twice_run :
  ∃ st',
    _review_code "def test(): pass" (JObj []) 2
      (Scenario.fresh Scenario.rejected_twice)
    = (Return (JObj [("status", JStr "needs_revision"); ("score", JInt 5)],
               "improved code"), st')
    ∧ calls_to CodeReviewer (invocations st') = 2%nat
    ∧ calls_to SoftwareDeveloper (invocations st') = 1%nat.
Proof.
  eexists. split; [vm_compute; reflexivity|]. split; reflexivity.
Qed.

(** * Further properties of the methods *)

Section LoopReturns.
Context {World : Type} `{Ext : Externals World}.
Implicit Types (st : Framework World) (w : World) (a : agent).

(** An invocation followed by the reading of its reply and more code: either
    the invocation or the reading raises, or the reply is passed on. *)
Lemma ask_bind_inv {B} a msg t (k : string → M World B) st o st' :
  (chat a msg t ≫= λ _, last_content a ≫= k) st = (o, st') →
  (∃ e w, o = Raise e ∧ st' = after_call st a msg w)
  ∨ (∃ text w, responds a msg t (user_proxy st) text w
               ∧ k text (after_call st a msg w) = (o, st')).
Proof.
  rewrite bind_run. unfold chat, responds.
  destruct (initiate_chat a msg t (user_proxy st)) as [[[]|e] w];
    [|intros [= <- <-]; left; eauto].
  rewrite bind_run. unfold last_content. cbn [after_call user_proxy].
  destruct (chat_messages w a) as [msgs|] eqn:Hm;
    [destruct (last msgs) as [text|] eqn:Hl|];
    try (intros [= <- <-]; left; by eauto).
  intros Hk. right. exists text, w. split; [|done]. split; [done|].
  by rewrite Hm.
Qed.

(** One pass through the body of the loop, whatever its outcome. *)
Lemma review_loop_pass_inv fuel max_iterations code iteration rr st o st' :
  iteration < max_iterations →
  review_loop (S fuel) max_iterations code iteration rr st = (o, st') →
  (∃ e w1, o = Raise e
           ∧ st' = after_call st CodeReviewer (review_message code) w1)
  ∨ (∃ text w1 members,
       responds CodeReviewer (review_message code) 1 (user_proxy st) text w1
       ∧ extract_structured text fallback_verdict = Ok (JObj members)
       ∧ if is_approved (dict_get "status" members) then
           o = Return (JObj members, code)
           ∧ st' = after_call st CodeReviewer (review_message code) w1
         else
           (code' ←
              (if iteration <? max_iterations - 1 then
                 chat SoftwareDeveloper (improve_message text code) 1;;
                 last_content SoftwareDeveloper
               else mret code);
            review_loop fuel max_iterations code' (iteration + 1)
              (Some (JObj members)))
             (after_call st CodeReviewer (review_message code) w1)
           = (o, st')).
Proof.
  intros Hlt Hrun. cbn [review_loop] in Hrun.
  destruct (Z.ltb_spec iteration max_iterations); [|lia].
  apply ask_bind_inv in Hrun as [(e & w1 & -> & ->)|(text & w1 & Hresp & Hrun)];
    [left; eauto|].
  destruct (extract_structured text fallback_verdict) as [v|e] eqn:Hparse;
    [|by rewrite extract_structured_cases in Hparse].
  cbn [lift] in Hrun. rewrite bind_run in Hrun. cbn [mret M_ret] in Hrun.
  rewrite bind_run in Hrun.
  destruct v as [| | | | | |members];
    try (injection Hrun as <- <-; left; by eauto).
  cbn [py_get lift mret M_ret] in Hrun.
  right. exists text, w1, members. split; [done|]. split; [done|].
  destruct (is_approved (dict_get "status" members)); [|done].
  by injection Hrun as <- <-.
Qed.

(** What a returning loop has done. *)
Lemma review_loop_returned fuel max_iterations code iteration rr st v c st' :
  review_loop fuel max_iterations code iteration rr st = (Return (v, c), st') →
  (max_iterations ≤ iteration ∧ rr = Some v ∧ c = code ∧ st' = st)
  ∨ (iteration < max_iterations
     ∧ ∃ last_review earlier text members,
         added_calls st st' (last_review :: earlier)
         ∧ target last_review = CodeReviewer
         ∧ message last_review = review_message c
         ∧ response last_review = Some text
         ∧ extract_structured text fallback_verdict = Ok v
         ∧ v = JObj members
         ∧ match earlier with
           | [] => c = code
           | revision :: _ =>
               target revision = SoftwareDeveloper
               ∧ response revision = Some c
           end
         ∧ calls_to CodeReviewer (last_review :: earlier)
           = S (calls_to SoftwareDeveloper (last_review :: earlier))
         ∧ (is_approved (dict_get "status" members) = true
            ∨ Z.of_nat (calls_to CodeReviewer (last_review :: earlier))
              = max_iterations - iteration)).
Proof.
  revert code iteration rr st.
  induction fuel as [|fuel IH]; intros code iteration rr st Hrun.
  { cbn [review_loop] in Hrun.
    destruct (Z.ltb_spec iteration max_iterations); [done|].
    left. destruct rr; [|done]. by injection Hrun as <- <- <-. }
  destruct (Z.ltb_spec iteration max_iterations) as [Hlt|Hge]; cycle 1.
  { rewrite review_loop_exit in Hrun by lia.
    left. destruct rr; [|done]. by injection Hrun as <- <- <-. }
  right. split; [done|].
  apply review_loop_pass_inv in Hrun; [|done].
  destruct Hrun as [(e & w1 & ? & _)|(text & w1 & members & Hresp & Hparse & Hrun)];
    [done|].
  set (s1 := after_call st CodeReviewer (review_message code) w1) in *.
  set (x1 := {| target := CodeReviewer; message := review_message code;
                after := w1 |}).
  assert (response x1 = Some text) as Hx1 by (by destruct Hresp).
  destruct (is_approved (dict_get "status" members)) eqn:Happroved.
  { destruct Hrun as [[= -> ->] ->].
    exists x1, [], text, members. split_and!; try done. by left. }
  apply bind_inv in Hrun as [(code' & s2 & Hrevise & Hrest)|[(e & _ & ?)|[_ ?]]];
    [|done|done].
  destruct (Z.ltb_spec iteration (max_iterations - 1)) as [Hbudget|Hlast].
  - apply ask_inv in Hrevise as (_ & w2 & -> & Hresp2).
    specialize (Hresp2 code' eq_refl).
    set (x2 := {| target := SoftwareDeveloper;
                  message := improve_message text code; after := w2 |}).
    assert (response x2 = Some code') as Hx2 by (by destruct Hresp2).
    apply IH in Hrest
      as [(? & _)|(_ & last_review & earlier & text' & members' & Hcalls & Htarget
                   & Hmsg & Hreply & Hparse' & -> & Hfinal & Hcount & Hend)];
      [lia|].
    exists last_review, (earlier ++ [x2; x1])%list, text', members'.
    split_and!; try done.
    + unfold added_calls in *. rewrite Hcalls. cbn [after_call invocations app].
      by rewrite <- app_assoc.
    + destruct earlier as [|revision earlier]; [|done]. by subst c.
    + rewrite app_comm_cons, !calls_to_app, Hcount.
      change (calls_to CodeReviewer [x2; x1]) with 1%nat.
      change (calls_to SoftwareDeveloper [x2; x1]) with 1%nat. lia.
    + destruct Hend as [?|Hend]; [by left|right].
      rewrite app_comm_cons, calls_to_app.
      change (calls_to CodeReviewer [x2; x1]) with 1%nat. lia.
  - injection Hrevise as <- <-.
    rewrite review_loop_exit in Hrest by lia.
    injection Hrest as <- <- <-.
    exists x1, [], text, members. split_and!; try done.
    right. change (calls_to CodeReviewer [x1]) with 1%nat. lia.
Qed.

End LoopReturns.

Section Budget.
Context {World : Type} `{Ext : Externals World}.
Implicit Types (st : Framework World) (a : agent) (b : agent → nat).

Lemma written_over_trans (m1 m2 m3 : gmap string json) :
  written_over m1 m2 → written_over m2 m3 → written_over m1 m3.
Proof. intros H12 H23. induction H23; [done|]. by constructor. Qed.

Lemma written_over_frame (m m' : gmap string json) :
  written_over m m' →
  dom m ⊆ dom m'
  ∧ dom m' ⊆ dom m ∪ pipeline_keys
  ∧ ∀ k, k ∉ pipeline_keys → m' !! k = m !! k.
Proof.
  induction 1 as [|k v m' Hk _ (IH1 & IH2 & IH3)].
  - split_and!; [done|set_solver|done].
  - split_and!.
    + rewrite dom_insert_L. set_solver.
    + rewrite dom_insert_L. set_solver.
    + intros k' Hk'. rewrite lookup_insert_ne by (intros ->; done). by apply IH3.
Qed.

Lemma spends_nothing st : spends no_calls st st.
Proof. split; [constructor|]. exists []. split; [done|]. intros a. done. Qed.

Lemma spends_both b1 b2 st s1 st' :
  spends b1 st s1 → spends b2 s1 st' → spends (both b1 b2) st st'.
Proof.
  intros [Hw1 (c1 & Hc1 & Hb1)] [Hw2 (c2 & Hc2 & Hb2)].
  split; [by eapply written_over_trans|].
  exists (c2 ++ c1)%list. unfold added_calls in *.
  split; [by rewrite Hc2, Hc1, app_assoc|].
  intros a. rewrite calls_to_app. unfold both.
  specialize (Hb1 a). specialize (Hb2 a). lia.
Qed.

Lemma spends_weaken b b' st st' :
  (∀ a, (b a ≤ b' a)%nat) → spends b st st' → spends b' st st'.
Proof.
  intros Hle [Hw (c & Hc & Hb)]. split; [done|]. exists c. split; [done|].
  intros a. specialize (Hb a). specialize (Hle a). lia.
Qed.

Lemma bounded_ret {A} (x : A) : bounded no_calls (mret x : M World A).
Proof. intros st o st' [= <- <-]. split; [done|]. apply spends_nothing. Qed.

Lemma bounded_raise {A} (e : exn) : bounded no_calls (raise e : M World A).
Proof. intros st o st' [= <- <-]. split; [done|]. apply spends_nothing. Qed.

Lemma bounded_lift {A} (r : result A) : bounded no_calls (lift r : M World A).
Proof. destruct r; [apply bounded_ret|apply bounded_raise]. Qed.

Lemma bounded_bind {A B} b1 b2 (m : M World A) (f : A → M World B) :
  bounded b1 m → (∀ x, bounded b2 (f x)) → bounded (both b1 b2) (m ≫= f).
Proof.
  intros Hm Hf st o st' Hrun.
  apply bind_inv in Hrun as [(x & s1 & H1 & H2)|[(e & H1 & ->)|[H1 ->]]].
  - apply Hm in H1 as [_ H1]. apply Hf in H2 as [Ho H2].
    split; [done|]. by eapply spends_both.
  - apply Hm in H1 as [_ H1]. split; [done|].
    eapply spends_weaken; [|done]. intros a. unfold both. lia.
  - by apply Hm in H1 as [? _].
Qed.

Lemma bounded_try_catch {A} b (m : M World A) :
  bounded b m → bounded b (try_catch m (λ e, raise e)).
Proof. intros Hm st o st'. rewrite try_catch_reraise. apply Hm. Qed.

Lemma bounded_chat a msg t : bounded (one_call a) (chat a msg t).
Proof.
  intros st o st' Hrun. apply chat_inv in Hrun as (w & -> & Ho).
  split; [done|]. split; [constructor|].
  exists [{| target := a; message := msg; after := w |}]. split; [done|].
  intros a'. rewrite calls_to_cons, calls_to_nil. unfold one_call. cbn [target].
  repeat case_decide; (congruence || lia).
Qed.

Lemma bounded_last_content a : bounded no_calls (last_content a).
Proof.
  intros st o st' [-> Ho]%last_content_inv. split; [done|]. apply spends_nothing.
Qed.

Lemma bounded_now : bounded no_calls (now (World := World)).
Proof. intros st o st' [= <- <-]. split; [done|]. apply spends_nothing. Qed.

Lemma bounded_get_results : bounded no_calls (get_results (World := World)).
Proof. intros st o st' [= <- <-]. split; [done|]. apply spends_nothing. Qed.

Lemma bounded_set_result key v :
  key ∈ pipeline_keys → bounded no_calls (set_result (World := World) key v).
Proof.
  intros Hkey st o st' [= <- <-]. split; [done|]. split.
  - cbn [stored results]. constructor; [done|constructor].
  - exists []. split; [done|]. by intros a.
Qed.

Lemma calls_to_none a (calls : list (exchange World)) :
  Forall (λ x, target x ≠ a) calls → calls_to a calls = 0%nat.
Proof.
  induction 1 as [|x calls Hx _ IH]; [done|].
  rewrite calls_to_cons, IH. by case_decide.
Qed.

Lemma bounded_review_code code requirements :
  bounded review_budget (_review_code code requirements 3).
Proof.
  intros st o st' Hrun. unfold _review_code in Hrun.
  apply review_loop_bounded in Hrun
    as (Ho & Hres & calls & Hcalls & Hrev & Hdev & Htargets).
  split; [apply Ho; lia|]. split; [rewrite Hres; constructor|].
  exists calls. split; [done|].
  intros a. destruct a; cbn [review_budget]; try lia;
    rewrite calls_to_none; try lia;
    (eapply Forall_impl; [exact Htargets|]); intros x [-> | ->]; done.
Qed.

Lemma length_calls (calls : list (exchange World)) :
  length calls
  = (calls_to RequirementAnalyst calls + calls_to SoftwareDeveloper calls
     + calls_to CodeReviewer calls + calls_to TechnicalWriter calls
     + calls_to QAEngineer calls + calls_to DevOpsEngineer calls)%nat.
Proof.
  induction calls as [|x calls IH]; [done|].
  rewrite !calls_to_cons. cbn [length]. rewrite IH.
  destruct (target x); repeat case_decide; try congruence; lia.
Qed.

Lemma process_requirement_bounded requirement :
  bounded pipeline_budget (process_requirement requirement).
Proof.
  intros st o st' Hrun.
  assert (∃ b, bounded b (process_requirement requirement)
               ∧ ∀ a, (b a ≤ pipeline_budget a)%nat) as (b & Hb & Hle).
  { eexists. split.
    - unfold process_requirement, _analyze_requirements, _generate_code,
        _generate_documentation, _generate_tests, _generate_deployment.
      apply bounded_try_catch.
      repeat first
        [ apply bounded_chat | apply bounded_last_content | apply bounded_lift
        | apply bounded_now | apply bounded_get_results | apply bounded_ret
        | apply bounded_review_code
        | apply bounded_set_result; unfold pipeline_keys; set_solver
        | eapply bounded_bind; [|intros ?]
        | match goal with x : (json * string)%type |- _ => destruct x end ].
    - intros a. destruct a; vm_compute; lia. }
  destruct (Hb _ _ _ Hrun) as [Ho Hspent]. split; [done|].
  by eapply spends_weaken.
Qed.

End Budget.

Section PipelineReturns.
Context {World : Type} `{Ext : Externals World}.
Implicit Types (st : Framework World) (w : World) (a : agent).

Lemma ask_returned a msg t st text s1 :
  (chat a msg t ≫= λ _, last_content a) st = (Return text, s1) →
  ∃ w, responds a msg t (user_proxy st) text w ∧ s1 = after_call st a msg w.
Proof. intros (_ & w & -> & Hresp)%ask_inv. exists w. split; [by apply Hresp|done]. Qed.

Lemma analyze_requirements_returned requirement st req s1 :
  _analyze_requirements requirement st = (Return req, s1) →
  ∃ text w,
    responds RequirementAnalyst (analyze_message requirement) 2 (user_proxy st)
      text w
    ∧ extract_structured text (fallback_requirements requirement) = Ok req
    ∧ s1 = after_call st RequirementAnalyst (analyze_message requirement) w.
Proof.
  unfold _analyze_requirements.
  intros [(e & w & ? & _)|(text & w & Hresp & Hrun)]%ask_bind_inv; [done|].
  exists text, w. split; [done|].
  rewrite extract_structured_cases in *. by injection Hrun as <- <-.
Qed.

Lemma generate_deployment_returned code requirements st d s1 :
  _generate_deployment code requirements st = (Return d, s1) →
  ∃ script w,
    responds DevOpsEngineer
      (deployment_message code (json_dumps None requirements)) 1 (user_proxy st)
      script w
    ∧ d = JObj [("script", JStr script); ("timestamp", JStr (now_isoformat w))]
    ∧ s1 = after_call st DevOpsEngineer
             (deployment_message code (json_dumps None requirements)) w.
Proof.
  unfold _generate_deployment.
  intros [(e & w & ? & _)|(script & w & Hresp & Hrun)]%ask_bind_inv; [done|].
  exists script, w. split; [done|]. by injection Hrun as <- <-.
Qed.

(** A returning run of the pipeline, stage by stage: the five single calls
    with their replies, the review loop in between, the log and the mapping
    at the end. *)
Lemma process_requirement_returned requirement st r st' :
  process_requirement requirement st = (Return r, st') →
  ∃ text req code review final doc tests script w1 w2 s3 w4 w5 w6 review_calls,
    responds RequirementAnalyst (analyze_message requirement) 2 (user_proxy st)
      text w1
    ∧ extract_structured text (fallback_requirements requirement) = Ok req
    ∧ responds SoftwareDeveloper (generate_message (json_dumps (Some 2) req)) 1
        w1 code w2
    ∧ _review_code code req 3
        (stored "code" (JStr code)
           (after_call
              (stored "requirements" req
                 (after_call st RequirementAnalyst
                    (analyze_message requirement) w1))
              SoftwareDeveloper (generate_message (json_dumps (Some 2) req)) w2))
      = (Return (review, final), s3)
    ∧ invocations s3
      = (review_calls ++
         {| target := SoftwareDeveloper;
            message := generate_message (json_dumps (Some 2) req); after := w2 |}
         :: {| target := RequirementAnalyst;
               message := analyze_message requirement; after := w1 |}
         :: invocations st)%list
    ∧ responds TechnicalWriter (documentation_message final) 1 (user_proxy s3)
        doc w4
    ∧ responds QAEngineer (tests_message final) 1 w4 tests w5
    ∧ responds DevOpsEngineer
        (deployment_message final (json_dumps None req)) 1 w5 script w6
    ∧ invocations st'
      = {| target := DevOpsEngineer;
           message := deployment_message final (json_dumps None req);
           after := w6 |}
        :: {| target := QAEngineer; message := tests_message final; after := w5 |}
        :: {| target := TechnicalWriter;
              message := documentation_message final; after := w4 |}
        :: invocations s3
    ∧ r = results st'
    ∧ results st'
      = <["deployment" :=
            JObj [("script", JStr script);
                  ("timestamp", JStr (now_isoformat w6))] ]>
          (<["tests" := JStr tests]> (<["documentation" := JStr doc]>
             (<["final_code" := JStr final]> (<["review" := review]>
                (<["code" := JStr code]>
                   (<["requirements" := req]> (results st))))))).
Proof.
  unfold process_requirement. rewrite try_catch_reraise. intros Hrun.
  apply bind_inv in Hrun as [(req & s1 & H1 & Hrun)|[(? & _ & ?)|[_ ?]]];
    [|done|done].
  apply analyze_requirements_returned in H1 as (text & w1 & R1 & Hreq & ->).
  rewrite set_result_bind in Hrun.
  apply bind_inv in Hrun as [(code & s2 & H2 & Hrun)|[(? & _ & ?)|[_ ?]]];
    [|done|done].
  apply ask_returned in H2 as (w2 & R2 & ->).
  rewrite set_result_bind in Hrun.
  apply bind_inv in Hrun as [([review final] & s3 & H3 & Hrun)|[(? & _ & ?)|[_ ?]]];
    [|done|done].
  pose proof H3 as Hloop. unfold _review_code in Hloop.
  apply review_loop_bounded in Hloop as (_ & Hres3 & review_calls & Hcalls3 & _).
  rewrite !set_result_bind in Hrun.
  apply bind_inv in Hrun as [(doc & s4 & H4 & Hrun)|[(? & _ & ?)|[_ ?]]];
    [|done|done].
  apply ask_returned in H4 as (w4 & R4 & ->).
  rewrite set_result_bind in Hrun.
  apply bind_inv in Hrun as [(tests & s5 & H5 & Hrun)|[(? & _ & ?)|[_ ?]]];
    [|done|done].
  apply ask_returned in H5 as (w5 & R5 & ->).
  rewrite set_result_bind in Hrun.
  apply bind_inv in Hrun as [(deploy & s6 & H6 & Hrun)|[(? & _ & ?)|[_ ?]]];
    [|done|done].
  apply generate_deployment_returned in H6 as (script & w6 & R6 & -> & ->).
  rewrite set_result_bind in Hrun. injection Hrun as <- <-.
  exists text, req, code, review, final, doc, tests, script, w1, w2, s3, w4, w5,
    w6, review_calls.
  split_and!; try done.
  cbn [stored after_call results]. by rewrite Hres3.
Qed.

End PipelineReturns.

Section MethodProperties.
Context {World : Type} `{Ext : Externals World}.
Implicit Types (st : Framework World) (w : World) (a : agent).

(** X1.  Whenever [_review_code] returns, for any budget and any agents:
    its last call was a review, the code it returns is the code that review
    was sent, and the verdict it returns is the one parsed from the reply to
    that review.  The returned code is the reply to the most recent revision
    request when there was one, and the code passed in otherwise. *)
Theorem review_code_verdict_matches_code
    code requirements max_iterations st v c st' :
  _review_code code requirements max_iterations st = (Return (v, c), st') →
  ∃ last_review earlier text,
    added_calls st st' (last_review :: earlier)
    ∧ target last_review = CodeReviewer
    ∧ message last_review = review_message c
    ∧ response last_review = Some text
    ∧ extract_structured text fallback_verdict = Ok v
    ∧ match earlier with
      | [] => c = code
      | revision :: _ =>
          target revision = SoftwareDeveloper ∧ response revision = Some c
      end.
Proof.
  unfold _review_code.
  intros [(_ & ? & _)|(_ & last_review & earlier & text & members & H)]%
    review_loop_returned; [done|].
  exists last_review, earlier, text. tauto.
Qed.

(** X2.  Whenever [_review_code] returns, the verdict is a dict and the
    reviews made outnumber the revisions by exactly one; either the verdict
    has status "approved", or all [max_iterations] reviews were made. *)
Theorem review_code_returns_approved_or_exhausted
    code requirements max_iterations st v c st' :
  _review_code code requirements max_iterations st = (Return (v, c), st') →
  ∃ calls members,
    added_calls st st' calls
    ∧ v = JObj members
    ∧ calls_to CodeReviewer calls = S (calls_to SoftwareDeveloper calls)
    ∧ (dict_get "status" members = Some (JStr "approved")
       ∨ Z.of_nat (calls_to CodeReviewer calls) = max_iterations).
Proof.
  unfold _review_code.
  intros [(_ & ? & _)|(_ & last_review & earlier & text & members & Hcalls & _
                       & _ & _ & _ & -> & _ & Hcount & Hend)]%
    review_loop_returned; [done|].
  exists (last_review :: earlier), members. split_and!; try done.
  destruct Hend as [Happroved%is_approved_true|Hend]; [by left|right; lia].
Qed.

(** X3.  Whatever the agents do, one run of [process_requirement]
    terminates and makes at most ten calls: one to the Analyst, at most
    three to the Developer (the generation and two revisions), at most three
    to the Reviewer, and one each to the Writer, the QA engineer and the
    DevOps engineer. *)
Theorem process_requirement_call_budget requirement st :
  fst (process_requirement requirement st) ≠ OutOfFuel
  ∧ ∃ calls,
      added_calls st (snd (process_requirement requirement st)) calls
      ∧ (length calls ≤ 10)%nat
      ∧ (calls_to RequirementAnalyst calls ≤ 1)%nat
      ∧ (calls_to SoftwareDeveloper calls ≤ 3)%nat
      ∧ (calls_to CodeReviewer calls ≤ 3)%nat
      ∧ (calls_to TechnicalWriter calls ≤ 1)%nat
      ∧ (calls_to QAEngineer calls ≤ 1)%nat
      ∧ (calls_to DevOpsEngineer calls ≤ 1)%nat.
Proof.
  destruct (process_requirement requirement st) as [o st'] eqn:Hrun.
  apply process_requirement_bounded in Hrun as (Ho & _ & calls & Hcalls & Hb).
  split; [done|]. exists calls. split; [done|].
  pose proof (Hb RequirementAnalyst). pose proof (Hb SoftwareDeveloper).
  pose proof (Hb CodeReviewer). pose proof (Hb TechnicalWriter).
  pose proof (Hb QAEngineer). pose proof (Hb DevOpsEngineer).
  cbn [pipeline_budget] in *. rewrite length_calls. split_and!; lia.
Qed.

(** X4.  Whatever its outcome, [process_requirement] removes no key from
    [self.results], adds none but its own seven, and leaves the value of
    every other key as it was. *)
Theorem process_requirement_keeps_mapping requirement st :
  dom (results st) ⊆ dom (results (snd (process_requirement requirement st)))
  ∧ dom (results (snd (process_requirement requirement st)))
    ⊆ dom (results st) ∪ pipeline_keys
  ∧ ∀ k, k ∉ pipeline_keys →
         results (snd (process_requirement requirement st)) !! k
         = results st !! k.
Proof.
  destruct (process_requirement requirement st) as [o st'] eqn:Hrun.
  apply process_requirement_bounded in Hrun as (_ & Hwritten & _).
  by apply written_over_frame.
Qed.

(** X5.  When [process_requirement] returns, its last four calls were the
    review whose verdict is stored under review, then the Writer, the QA
    engineer and the DevOps engineer; all four were sent the code stored
    under final_code, and documentation, tests and the deployment script
    are the replies of the last three. *)
Theorem process_requirement_final_artifacts requirement st r st' :
  process_requirement requirement st = (Return r, st') →
  ∃ final review doc tests script x_dep x_tst x_doc x_rev text earlier,
    added_calls st st' (x_dep :: x_tst :: x_doc :: x_rev :: earlier)
    ∧ r !! "final_code" = Some (JStr final)
    ∧ r !! "review" = Some review
    ∧ r !! "documentation" = Some (JStr doc)
    ∧ r !! "tests" = Some (JStr tests)
    ∧ r !! "deployment"
      = Some (JObj [("script", JStr script);
                    ("timestamp", JStr (now_isoformat (after x_dep)))])
    ∧ target x_rev = CodeReviewer
    ∧ message x_rev = review_message final
    ∧ response x_rev = Some text
    ∧ extract_structured text fallback_verdict = Ok review
    ∧ target x_doc = TechnicalWriter
    ∧ message x_doc = documentation_message final
    ∧ response x_doc = Some doc
    ∧ target x_tst = QAEngineer
    ∧ message x_tst = tests_message final
    ∧ response x_tst = Some tests
    ∧ target x_dep = DevOpsEngineer
    ∧ (∃ req_text, message x_dep = deployment_message final req_text)
    ∧ response x_dep = Some script.
Proof.
  intros (text1 & req & code & review & final & doc & tests & script & w1 & w2
          & s3 & w4 & w5 & w6 & review_calls & R1 & Hreq & R2 & Hloop & _ & R4
          & R5 & R6 & Hlog & -> & Hres)%process_requirement_returned.
  unfold _review_code in Hloop.
  apply review_loop_returned in Hloop
    as [(? & _)|(_ & x_rev & earlier & text & members & Hcalls & Htarget & Hmsg
                 & Hreply & Hparse & _)]; [lia|].
  eexists final, review, doc, tests, script, _, _, _, x_rev, text,
    (earlier ++
     [{| target := SoftwareDeveloper;
         message := generate_message (json_dumps (Some 2) req); after := w2 |};
      {| target := RequirementAnalyst;
         message := analyze_message requirement; after := w1 |}])%list.
  split_and!.
  - unfold added_calls in *. rewrite Hlog, Hcalls.
    cbn [stored after_call invocations app]. by rewrite <- app_assoc.
  - rewrite Hres. by repeat (rewrite lookup_insert_ne by done);
      rewrite lookup_insert_eq.
  - rewrite Hres. by repeat (rewrite lookup_insert_ne by done);
      rewrite lookup_insert_eq.
  - rewrite Hres. by repeat (rewrite lookup_insert_ne by done);
      rewrite lookup_insert_eq.
  - rewrite Hres. by repeat (rewrite lookup_insert_ne by done);
      rewrite lookup_insert_eq.
  - rewrite Hres. by rewrite lookup_insert_eq.
  - done.
  - done.
  - done.
  - done.
  - done.
  - done.
  - by destruct R4.
  - done.
  - done.
  - by destruct R5.
  - done.
  - by eexists.
  - by destruct R6.
Qed.

(** X6.  When [process_requirement] returns, what it returns is
    [self.results] itself, holding the keys it held before and the seven
    keys of the pipeline.  The value under requirements is what the parse
    block made of the Analyst's reply; the Developer's first request carries
    that value as [json.dumps] prints it with [indent=2], and the value
    under code is the reply to that request. *)
Theorem process_requirement_first_artifacts requirement st r st' :
  process_requirement requirement st = (Return r, st') →
  r = results st'
  ∧ dom r = dom (results st) ∪ pipeline_keys
  ∧ ∃ text req code x_an x_gen later,
      added_calls st st' (later ++ [x_gen; x_an])%list
      ∧ target x_an = RequirementAnalyst
      ∧ message x_an = analyze_message requirement
      ∧ response x_an = Some text
      ∧ extract_structured text (fallback_requirements requirement) = Ok req
      ∧ r !! "requirements" = Some req
      ∧ target x_gen = SoftwareDeveloper
      ∧ message x_gen = generate_message (json_dumps (Some 2) req)
      ∧ response x_gen = Some code
      ∧ r !! "code" = Some (JStr code).
Proof.
  intros (text & req & code & review & final & doc & tests & script & w1 & w2
          & s3 & w4 & w5 & w6 & review_calls & R1 & Hreq & R2 & _ & Hlog3 & _
          & _ & _ & Hlog & -> & Hres)%process_requirement_returned.
  split; [done|]. split.
  { rewrite Hres, !dom_insert_L. unfold pipeline_keys. set_solver. }
  eexists text, req, code, _, _, ([_; _; _] ++ review_calls)%list.
  split_and!.
  - unfold added_calls. rewrite Hlog, Hlog3. by rewrite <- app_assoc.
  - done.
  - done.
  - by destruct R1.
  - done.
  - rewrite Hres. by repeat (rewrite lookup_insert_ne by done);
      rewrite lookup_insert_eq.
  - done.
  - done.
  - by destruct R2.
  - rewrite Hres. by repeat (rewrite lookup_insert_ne by done);
      rewrite lookup_insert_eq.
Qed.

End MethodProperties.

(** * Saving *)

Section SavingProperties.
Context {World : Type} `{Ext : Externals World}.
Variable dump_results : gmap string json → string.
Implicit Types (st : Framework World) (disk : gmap string string).

Lemma file_path_inj (output_dir n1 n2 : string) :
  file_path output_dir n1 = file_path output_dir n2 → n1 = n2.
Proof.
  unfold file_path. intros H.
  by apply (inj (String.app output_dir)), (inj (String.app "/")) in H.
Qed.

Lemma disk_bind_run {A B} (m : Disk A) (f : A → Disk B) disk :
  (m ≫= f) disk =
  match m disk with
  | (Ok x, disk') => f x disk'
  | (Err e, disk') => (Err e, disk')
  end.
Proof. reflexivity. Qed.

Lemma only_writes_ret {A} (x : A) : only_writes [] (mret x : Disk A).
Proof. by intros disk r disk' p [= <- <-]. Qed.

Lemma only_writes_bind {A B} P1 P2 (m : Disk A) (f : A → Disk B) :
  only_writes P1 m → (∀ x, only_writes P2 (f x)) →
  only_writes (P1 ++ P2) (m ≫= f).
Proof.
  intros Hm Hf disk r disk' p. rewrite disk_bind_run.
  destruct (m disk) as [[x|e] d1] eqn:H1; intros Hrun [Hp1 Hp2]%not_elem_of_app.
  - rewrite (Hf _ _ _ _ _ Hrun Hp2). by eapply Hm.
  - injection Hrun as <- <-. by eapply Hm.
Qed.

Lemma only_writes_write_string path text : only_writes [path] (write_string path text).
Proof.
  intros disk r disk' p [= <- <-] Hp. apply lookup_insert_ne. set_solver.
Qed.

Lemma only_writes_write_text path v : only_writes [path] (write_text path v).
Proof.
  intros disk r disk' p Hrun Hp. unfold write_text in Hrun.
  destruct v; injection Hrun as <- <-; apply lookup_insert_ne; set_solver.
Qed.

Lemma only_writes_when_present (self_results : gmap string json) key
    (action : json → Disk unit) output_dir name :
  (∀ v, only_writes [file_path output_dir name] (action v)) →
  only_writes
    (file_path output_dir <$> (if self_results !! key is Some _ then [name] else []))
    (when_present self_results key action).
Proof.
  intros Haction. unfold when_present.
  destruct (self_results !! key); [apply Haction|apply only_writes_ret].
Qed.

(** One call writes the files that [saved_files] names, and no other. *)
Lemma save_results_only_writes_saved output_dir generated_on st :
  only_writes (file_path output_dir <$> saved_files (results st))
    (save_results dump_results output_dir generated_on st).
Proof.
  unfold save_results, saved_files. cbv zeta. rewrite !fmap_app.
  repeat (apply only_writes_bind; [|intros _]);
    try (apply only_writes_when_present; intros v;
         first [apply only_writes_write_text|apply only_writes_write_string]).
  - unfold when_present.
    destruct (results st !! "deployment") as [d|]; [|apply only_writes_ret].
    destruct d;
      try (apply (only_writes_bind [_] []);
           [apply only_writes_write_text|intros _; apply only_writes_ret]).
    apply (only_writes_bind [_] [_]);
      [apply only_writes_write_text|intros _; apply only_writes_write_string].
  - apply (only_writes_bind [_] [_]);
      [apply only_writes_write_string|intros _; apply only_writes_write_string].
Qed.

Lemma put_if_lookup_ne content path disk q :
  path ≠ q → put_if content path disk !! q = disk !! q.
Proof. intros Hne. destruct content; [by apply lookup_insert_ne|done]. Qed.

Lemma put_if_lookup_eq content path disk :
  put_if content path disk !! path
  = match content with Some c => Some c | None => disk !! path end.
Proof. destruct content; [by apply lookup_insert_eq|done]. Qed.

Lemma when_present_dump (self_results : gmap string json) key path disk :
  when_present self_results key (dump_json path) disk
  = (Ok (), put_if (json_dumps (Some 2) <$> self_results !! key) path disk).
Proof. unfold when_present. by destruct (self_results !! key). Qed.

Lemma when_present_text (self_results : gmap string json) key path disk :
  (∀ v, self_results !! key = Some v → is_Some (as_text v)) →
  when_present self_results key (write_text path) disk
  = (Ok (), put_if (self_results !! key ≫= as_text) path disk).
Proof.
  intros Htext. unfold when_present.
  destruct (self_results !! key) as [v|]; [|done].
  destruct (Htext v eq_refl) as [s Hs]. by destruct v.
Qed.

(** What a deployment entry puts into deployment_info.json. *)
Lemma when_present_deployment (self_results : gmap string json) p_script p_info disk :
  (∀ d, self_results !! "deployment" = Some d →
        is_Some (as_text (script_content d))) →
  when_present self_results "deployment"
    (λ deploy_data,
       write_text p_script (script_content deploy_data);;
       match deploy_data with
       | JObj _ => dump_json p_info deploy_data
       | _ => mret ()
       end) disk
  = (Ok (),
     put_if (self_results !! "deployment" ≫= λ d,
               if d is JObj _ then Some (json_dumps (Some 2) d) else None)
       p_info
       (put_if (self_results !! "deployment" ≫= λ d, as_text (script_content d))
          p_script disk)).
Proof.
  intros Htext. unfold when_present.
  destruct (self_results !! "deployment") as [d|]; [|done].
  destruct (Htext d eq_refl) as [s Hs]. rewrite disk_bind_run. cbn.
  unfold write_text. destruct (script_content d); try done.
  by destruct d.
Qed.

(** The disk after a save of a mapping whose texts are texts. *)
Lemma save_results_typed output_dir generated_on st disk :
  texts_are_texts (results st) →
  save_results dump_results output_dir generated_on st disk
  = (Ok (),
     put_if (Some (readme_content generated_on)) (file_path output_dir "README.md")
     (put_if (Some (dump_results (results st)))
        (file_path output_dir "full_results.json")
     (put_if (results st !! "deployment" ≫= λ d,
                if d is JObj _ then Some (json_dumps (Some 2) d) else None)
        (file_path output_dir "deployment_info.json")
     (put_if (results st !! "deployment" ≫= λ d, as_text (script_content d))
        (file_path output_dir "deploy.sh")
     (put_if (results st !! "tests" ≫= as_text)
        (file_path output_dir "test_generated_code.py")
     (put_if (results st !! "documentation" ≫= as_text)
        (file_path output_dir "documentation.md")
     (put_if (json_dumps (Some 2) <$> results st !! "review")
        (file_path output_dir "code_review.json")
     (put_if (results st !! "final_code" ≫= as_text)
        (file_path output_dir "generated_code.py")
     (put_if (results st !! "code" ≫= as_text)
        (file_path output_dir "initial_code.py")
     (put_if (json_dumps (Some 2) <$> results st !! "requirements")
        (file_path output_dir "requirements.json") disk)))))))))).
Proof.
  intros [Htexts Hdeploy]. unfold save_results. cbv zeta.
  rewrite disk_bind_run, when_present_dump.
  rewrite disk_bind_run, when_present_text by (intros v Hv; eapply Htexts; [|exact Hv]; set_solver).
  rewrite disk_bind_run, when_present_text by (intros v Hv; eapply Htexts; [|exact Hv]; set_solver).
  rewrite disk_bind_run, when_present_dump.
  rewrite disk_bind_run, when_present_text by (intros v Hv; eapply Htexts; [|exact Hv]; set_solver).
  rewrite disk_bind_run, when_present_text by (intros v Hv; eapply Htexts; [|exact Hv]; set_solver).
  rewrite disk_bind_run, when_present_deployment by done.
  done.
Qed.

(** Two of the ten paths under one directory are equal only when their
    names are. *)
Ltac other_file :=
  let H := fresh in intros H%file_path_inj; discriminate H.

Ltac read_file :=
  repeat (rewrite put_if_lookup_ne by other_file); rewrite put_if_lookup_eq.

Lemma raises_within_bind {A B} P1 P2 (m : Disk A) (f : A → Disk B) :
  only_writes P1 m → raises_within P1 m → (∀ x, raises_within P2 (f x)) →
  raises_within (P1 ++ P2) (m ≫= f).
Proof.
  intros Hw Hm Hf disk e disk'. rewrite disk_bind_run.
  destruct (m disk) as [[x|e1] d1] eqn:H1; intros Hrun.
  - destruct (Hf _ _ _ _ Hrun) as [-> Hframe]. split; [done|].
    intros p [Hp1 Hp2]%not_elem_of_app. rewrite Hframe by done. by eapply Hw.
  - injection Hrun as <- <-. destruct (Hm _ _ _ H1) as [-> Hframe].
    split; [done|]. intros p [Hp1 _]%not_elem_of_app. by apply Hframe.
Qed.

Lemma raises_within_write_string path text P :
  raises_within P (write_string path text).
Proof. by intros disk e disk'. Qed.

Lemma raises_within_write_text path v : raises_within [path] (write_text path v).
Proof.
  intros disk e disk' Hrun. unfold write_text in Hrun.
  destruct v; try done; injection Hrun as <- <-;
    (split; [done|]); intros p Hp; apply lookup_insert_ne; set_solver.
Qed.

Lemma raises_within_when_present (self_results : gmap string json) key
    (action : json → Disk unit) P :
  (∀ v, raises_within P (action v)) →
  raises_within P (when_present self_results key action).
Proof.
  intros Haction. unfold when_present. destruct (self_results !! key); [done|].
  by intros disk e disk'.
Qed.

Lemma only_writes_when_present_path (self_results : gmap string json) key
    (action : json → Disk unit) P :
  (∀ v, only_writes P (action v)) →
  only_writes P (when_present self_results key action).
Proof.
  intros Haction. unfold when_present. destruct (self_results !! key); [done|].
  intros disk r disk' p [= <- <-]. done.
Qed.

(** Only the writes of the eight artifact files can raise. *)
Lemma save_results_raises_within output_dir generated_on st :
  raises_within
    (file_path output_dir <$>
       ["requirements.json"; "initial_code.py"; "generated_code.py";
        "code_review.json"; "documentation.md"; "test_generated_code.py";
        "deploy.sh"; "deployment_info.json"])
    (save_results dump_results output_dir generated_on st).
Proof.
  unfold save_results. cbv zeta. cbn [fmap list_fmap].
  apply (raises_within_bind [_] [_; _; _; _; _; _; _]);
    [apply only_writes_when_present_path; intros v; apply only_writes_write_string
    |apply raises_within_when_present; intros v; apply raises_within_write_string
    |intros _].
  apply (raises_within_bind [_] [_; _; _; _; _; _]);
    [apply only_writes_when_present_path; intros v; apply only_writes_write_text
    |apply raises_within_when_present; intros v; apply raises_within_write_text
    |intros _].
  apply (raises_within_bind [_] [_; _; _; _; _]);
    [apply only_writes_when_present_path; intros v; apply only_writes_write_text
    |apply raises_within_when_present; intros v; apply raises_within_write_text
    |intros _].
  apply (raises_within_bind [_] [_; _; _; _]);
    [apply only_writes_when_present_path; intros v; apply only_writes_write_string
    |apply raises_within_when_present; intros v; apply raises_within_write_string
    |intros _].
  apply (raises_within_bind [_] [_; _; _]);
    [apply only_writes_when_present_path; intros v; apply only_writes_write_text
    |apply raises_within_when_present; intros v; apply raises_within_write_text
    |intros _].
  apply (raises_within_bind [_] [_; _]);
    [apply only_writes_when_present_path; intros v; apply only_writes_write_text
    |apply raises_within_when_present; intros v; apply raises_within_write_text
    |intros _].
  apply (raises_within_bind [_; _] []).
  - apply only_writes_when_present_path. intros d.
    apply (only_writes_bind [_] [_]); [apply only_writes_write_text|intros _].
    destruct d; try apply only_writes_write_string;
      by intros disk r disk' p [= <- <-].
  - apply raises_within_when_present. intros d.
    apply (raises_within_bind [_] [_]);
      [apply only_writes_write_text|apply raises_within_write_text|intros _].
    destruct d; try apply raises_within_write_string; by intros disk e disk'.
  - intros _ disk e disk'. done.
Qed.

Lemma saved_files_known (self_results : gmap string json) :
  saved_files self_results ⊆ all_files.
Proof.
  intros name. unfold saved_files, all_files. rewrite !elem_of_app.
  intros [H|[H|[H|[H|[H|[H|[H|H]]]]]]]; repeat case_match; set_solver.
Qed.

Lemma saved_files_absent (self_results : gmap string json) key name :
  (key, name) ∈ artifact_files →
  self_results !! key = None →
  name ∉ saved_files self_results.
Proof.
  unfold artifact_files, saved_files. intros Hin%list_elem_of_In Hnone.
  rewrite !elem_of_app. cbn [In] in Hin.
  repeat destruct Hin as [Hin|Hin]; try done; injection Hin as <- <-;
    rewrite Hnone; intros [H|[H|[H|[H|[H|[H|[H|H]]]]]]];
    repeat case_match; set_solver.
Qed.

Lemma holds_text (v : json) (s : string) : as_text v = Some s → v = JStr s.
Proof. destruct v; naive_solver. Qed.

(** X7.  On a mapping whose texts are texts, [save_results] does not raise.
    Afterwards README.md and full_results.json hold the README text and the
    print of the whole mapping; each of requirements.json and
    code_review.json holds its value as [json.dump] prints it with
    [indent=2]; initial_code.py, generated_code.py, documentation.md and
    test_generated_code.py hold the texts under code, final_code,
    documentation and tests; deploy.sh holds the text the deployment entry
    gives, and deployment_info.json the print of the entry when it is a
    dict.  A later write never lands on an earlier file. *)
Theorem save_results_contents output_dir generated_on st disk :
  texts_are_texts (results st) →
  ∃ disk',
    save_results dump_results output_dir generated_on st disk = (Ok (), disk')
    ∧ disk' !! file_path output_dir "README.md"
      = Some (readme_content generated_on)
    ∧ disk' !! file_path output_dir "full_results.json"
      = Some (dump_results (results st))
    ∧ (∀ v, results st !! "requirements" = Some v →
            disk' !! file_path output_dir "requirements.json"
            = Some (json_dumps (Some 2) v))
    ∧ (∀ v, results st !! "review" = Some v →
            disk' !! file_path output_dir "code_review.json"
            = Some (json_dumps (Some 2) v))
    ∧ (∀ s, results st !! "code" = Some (JStr s) →
            disk' !! file_path output_dir "initial_code.py" = Some s)
    ∧ (∀ s, results st !! "final_code" = Some (JStr s) →
            disk' !! file_path output_dir "generated_code.py" = Some s)
    ∧ (∀ s, results st !! "documentation" = Some (JStr s) →
            disk' !! file_path output_dir "documentation.md" = Some s)
    ∧ (∀ s, results st !! "tests" = Some (JStr s) →
            disk' !! file_path output_dir "test_generated_code.py" = Some s)
    ∧ (∀ d, results st !! "deployment" = Some d →
            disk' !! file_path output_dir "deploy.sh"
            = as_text (script_content d))
    ∧ (∀ members, results st !! "deployment" = Some (JObj members) →
            disk' !! file_path output_dir "deployment_info.json"
            = Some (json_dumps (Some 2) (JObj members))).
Proof.
  intros Htyped. eexists. split; [by apply save_results_typed|].
  pose proof Htyped as [_ Hdeploy].
  split_and!.
  - by read_file.
  - by read_file.
  - intros v Hv. read_file. by rewrite Hv.
  - intros v Hv. read_file. by rewrite Hv.
  - intros s Hs. read_file. by rewrite Hs.
  - intros s Hs. read_file. by rewrite Hs.
  - intros s Hs. read_file. by rewrite Hs.
  - intros s Hs. read_file. by rewrite Hs.
  - intros d Hd. read_file. rewrite Hd. cbn.
    by destruct (Hdeploy d Hd) as [s ->].
  - intros members Hd. read_file. by rewrite Hd.
Qed.

(** X8.  Whatever it holds and whether or not the call raises,
    [save_results] creates or changes no file other than its ten files
    under [output_dir]; and the file of a key that the mapping lacks is left
    as it was, so that a file written by an earlier call stays on the
    disk. *)
Theorem save_results_leaves_other_files output_dir generated_on st disk :
  (∀ p, p ∉ file_path output_dir <$> all_files →
        snd (save_results dump_results output_dir generated_on st disk) !! p
        = disk !! p)
  ∧ ∀ key name,
      (key, name) ∈ artifact_files →
      results st !! key = None →
      snd (save_results dump_results output_dir generated_on st disk)
        !! file_path output_dir name
      = disk !! file_path output_dir name.
Proof.
  destruct (save_results dump_results output_dir generated_on st disk)
    as [r disk'] eqn:Hrun.
  pose proof (save_results_only_writes_saved output_dir generated_on st
                disk r disk') as Hframe.
  split.
  - intros p Hp. apply Hframe; [done|].
    intros (name & -> & Hname)%list_elem_of_fmap. apply Hp.
    apply list_elem_of_fmap. exists name. split; [done|].
    by apply saved_files_known in Hname.
  - intros key name Hin Hnone. apply Hframe; [done|].
    intros (name' & Heq%file_path_inj & Hname)%list_elem_of_fmap. subst name'.
    by eapply saved_files_absent.
Qed.

(** X9.  On the ideal disk, that is, as long as [os.makedirs], the opening
    of a file and the writing of a text to it do not fail: when
    [save_results] raises, the exception is the [TypeError] of a write that
    was handed a value that is not a text, the mapping is not one whose
    texts are texts, and the call has stopped there: neither
    full_results.json nor README.md has been written. *)
Theorem save_results_failure output_dir generated_on st disk e disk' :
  save_results dump_results output_dir generated_on st disk = (Err e, disk') →
  e = OtherError "TypeError"
  ∧ ¬ texts_are_texts (results st)
  ∧ disk' !! file_path output_dir "full_results.json"
    = disk !! file_path output_dir "full_results.json"
  ∧ disk' !! file_path output_dir "README.md"
    = disk !! file_path output_dir "README.md".
Proof.
  intros Hrun.
  destruct (save_results_raises_within output_dir generated_on st _ _ _ Hrun)
    as [-> Hframe].
  split; [done|]. split.
  { intros Htyped. by rewrite save_results_typed in Hrun. }
  split; apply Hframe; intros (name & Heq%file_path_inj & Hname)%list_elem_of_fmap;
    subst name; set_solver.
Qed.

(** X11.  On a mapping whose texts are texts: a deployment entry that is a
    dict without a script gives an empty deploy.sh next to its
    deployment_info.json; a deployment entry that is a bare text is written
    to deploy.sh as it is, and deployment_info.json is not touched. *)
Theorem save_results_deployment_forms output_dir generated_on st disk :
  texts_are_texts (results st) →
  (∀ members,
     results st !! "deployment" = Some (JObj members) →
     dict_get "script" members = None →
     snd (save_results dump_results output_dir generated_on st disk)
       !! file_path output_dir "deploy.sh" = Some ""
     ∧ snd (save_results dump_results output_dir generated_on st disk)
         !! file_path output_dir "deployment_info.json"
       = Some (json_dumps (Some 2) (JObj members)))
  ∧ (∀ s,
       results st !! "deployment" = Some (JStr s) →
       snd (save_results dump_results output_dir generated_on st disk)
         !! file_path output_dir "deploy.sh" = Some s
       ∧ snd (save_results dump_results output_dir generated_on st disk)
           !! file_path output_dir "deployment_info.json"
         = disk !! file_path output_dir "deployment_info.json").
Proof.
  intros Htyped. rewrite save_results_typed by done. cbn [snd]. split.
  - intros members Hd Hscript.
    assert (results st !! "deployment" ≫= (λ d, as_text (script_content d))
            = Some "") as -> by (by rewrite Hd; cbn; rewrite Hscript).
    assert (results st !! "deployment" ≫=
              (λ d, if d is JObj _ then Some (json_dumps (Some 2) d) else None)
            = Some (json_dumps (Some 2) (JObj members))) as ->
      by (by rewrite Hd).
    split; by read_file.
  - intros s Hd.
    assert (results st !! "deployment" ≫= (λ d, as_text (script_content d))
            = Some s) as -> by (by rewrite Hd).
    assert (results st !! "deployment" ≫=
              (λ d, if d is JObj _ then Some (json_dumps (Some 2) d) else None)
            = None) as -> by (by rewrite Hd).
    split; [by read_file|]. read_file.
    by repeat (rewrite put_if_lookup_ne by other_file).
Qed.

(** The mapping of a returning run is the one returned, and holds all
    seven keys. *)
Lemma process_requirement_stored requirement st r st' :
  process_requirement requirement st = (Return r, st') →
  r = results st'
  ∧ ∃ req code review final doc tests deployment,
      r !! "requirements" = Some req
      ∧ r !! "code" = Some code
      ∧ r !! "review" = Some review
      ∧ r !! "final_code" = Some final
      ∧ r !! "documentation" = Some doc
      ∧ r !! "tests" = Some tests
      ∧ r !! "deployment" = Some (JObj deployment).
Proof.
  intros (text & req & code & review & final & doc & tests & script & w1 & w2
          & s3 & w4 & w5 & w6 & review_calls & _ & _ & _ & _ & _ & _ & _ & _
          & _ & -> & Hres)%process_requirement_returned.
  split; [done|]. rewrite Hres.
  eexists _, _, _, _, _, _, _. split_and!;
    by repeat (rewrite lookup_insert_ne by done); rewrite lookup_insert_eq.
Qed.

(** X10.  On the ideal disk, where [os.makedirs], the opening of a file and
    the writing of a text do not fail: after a run of [process_requirement]
    that returned a mapping whose texts are texts (every reply that is
    written to a file as it is was a text), [save_results] does not raise
    and leaves all ten files on the disk: initial_code.py holds the code
    first generated, generated_code.py the code stored as final,
    documentation.md and test_generated_code.py the stored documentation
    and tests, and deploy.sh the script of the stored deployment entry,
    which is a dict. *)
Theorem save_results_after_run
    requirement st r st' output_dir generated_on disk :
  process_requirement requirement st = (Return r, st') →
  texts_are_texts r →
  ∃ disk' code final doc tests deployment script,
    save_results dump_results output_dir generated_on st' disk = (Ok (), disk')
    ∧ r !! "code" = Some (JStr code)
    ∧ r !! "final_code" = Some (JStr final)
    ∧ r !! "documentation" = Some (JStr doc)
    ∧ r !! "tests" = Some (JStr tests)
    ∧ r !! "deployment" = Some (JObj deployment)
    ∧ script_content (JObj deployment) = JStr script
    ∧ disk' !! file_path output_dir "initial_code.py" = Some code
    ∧ disk' !! file_path output_dir "generated_code.py" = Some final
    ∧ disk' !! file_path output_dir "documentation.md" = Some doc
    ∧ disk' !! file_path output_dir "test_generated_code.py" = Some tests
    ∧ disk' !! file_path output_dir "deploy.sh" = Some script
    ∧ Forall (λ name, is_Some (disk' !! file_path output_dir name)) all_files.
Proof.
  intros Hrun Htyped.
  destruct (process_requirement_stored _ _ _ _ Hrun)
    as (-> & req & code & review & final & doc & tests & deployment
        & Lreq & Lcode & Lreview & Lfinal & Ldoc & Ltests & Ldeploy).
  pose proof Htyped as [Htexts Hscript].
  destruct (Htexts "code" code) as [code' ->%holds_text]; [set_solver|done|].
  destruct (Htexts "final_code" final) as [final' ->%holds_text];
    [set_solver|done|].
  destruct (Htexts "documentation" doc) as [doc' ->%holds_text];
    [set_solver|done|].
  destruct (Htexts "tests" tests) as [tests' ->%holds_text]; [set_solver|done|].
  destruct (Hscript _ Ldeploy) as [script Lscript%holds_text].
  eexists _, code', final', doc', tests', deployment, script.
  split; [by apply save_results_typed|].
  split_and!; try done.
  - read_file. by rewrite Lcode.
  - read_file. by rewrite Lfinal.
  - read_file. by rewrite Ldoc.
  - read_file. by rewrite Ltests.
  - read_file. rewrite Ldeploy. cbn [mbind option_bind]. by rewrite Lscript.
  - unfold all_files. repeat constructor; read_file;
      rewrite ?Lreq, ?Lcode, ?Lreview, ?Lfinal, ?Ldoc, ?Ltests, ?Ldeploy;
      cbn [mbind option_bind fmap option_fmap option_map]; rewrite ?Lscript;
      by eexists.
Qed.

End SavingProperties.

(** * The page *)

Section PageProperties.
Context {World : Type} `{Ext : Externals World}.
Variables hms ymd_hms : nat → string.
Variables str_exn format_exc : exn → string.
Variable new_user_proxy : string → string → result World.
Variable dump_results : gmap string json → string.
Implicit Types (s : App.Session World) (fw : Framework World).



(** X14.  When the method raises, the page writes nothing to the disk and
    does not assign [st.session_state.results].  If the results on display
    were those of an earlier run of the same instance, they are the very
    mapping the failed run has been writing to: the page now shows that
    mapping as the failed run left it.  Results of an instance that has been
    replaced stay as they were. *)
Theorem page_failure_shows_partial_results requirement s fw e fw' disk :
  App.framework s = Some fw →
  process_requirement requirement fw = (Raise e, fw') →
  ∃ s',
    App.process_requirement hms ymd_hms str_exn format_exc dump_results
      requirement s disk = (Return (), s', disk)
    ∧ App.session_results s' = App.session_results s
    ∧ App.displayed s'
      = match App.session_results s with
        | App.Current => Some (results fw')
        | _ => App.displayed s
        end.
Proof.
  intros Hfw Hrun. unfold App.process_requirement. rewrite Hfw, Hrun.
  eexists. split; [done|]. split; [done|].
  unfold App.displayed. cbn. by destruct (App.session_results s).
Qed.


End PageProperties.

(** * Tracing a failure to its call *)

Section FailureCause.
Context {World : Type} `{Ext : Externals World}.
Implicit Types (st : Framework World) (w : World) (a : agent).

Lemma diagnosed_after_weaken {A} x (m : M World A) :
  diagnosed m → diagnosed_after x m.
Proof.
  intros Hm st o st' Hrun. destruct (Hm _ _ _ Hrun) as (calls & Hcalls & Hr).
  exists calls. split; [done|]. intros e He.
  destruct (Hr e He) as [?|(_ & y & [=] & _)]. by left.
Qed.

(** Code that makes no call and does not raise. *)
Lemma diagnosed_silent {A} x (m : M World A) :
  (∀ st, ∃ o st1, m st = (o, st1) ∧ invocations st1 = invocations st
                  ∧ ∀ e, o ≠ Raise e) →
  diagnosed_after x m.
Proof.
  intros Hm st o st' Hrun. destruct (Hm st) as (o1 & st1 & H1 & Hlog & Ho).
  rewrite H1 in Hrun. injection Hrun as <- <-.
  exists []. split; [done|]. intros e He. by destruct (Ho e).
Qed.

Lemma diagnosed_bind {A B} x (m : M World A) (f : A → M World B) :
  diagnosed_after x m → (∀ v, diagnosed (f v)) → diagnosed_after x (m ≫= f).
Proof.
  intros Hm Hf st o st' Hrun.
  apply bind_inv in Hrun as [(v & s1 & H1 & H2)|[(e & H1 & ->)|[H1 ->]]].
  - destruct (Hm _ _ _ H1) as (c1 & Hc1 & _).
    destruct (Hf v _ _ _ H2) as (c2 & Hc2 & Hr).
    exists (c2 ++ c1)%list. split.
    { unfold added_calls in *. by rewrite Hc2, Hc1, app_assoc. }
    intros e He.
    destruct (Hr e He) as [(y & earlier & -> & Hy)|(_ & y & [=] & _)].
    left. by exists y, (earlier ++ c1)%list.
  - destruct (Hm _ _ _ H1) as (c1 & Hc1 & Hr). exists c1. split; [done|].
    intros e' [= <-]. by apply Hr.
  - destruct (Hm _ _ _ H1) as (c1 & Hc1 & _). exists c1. split; [done|].
    by intros e.
Qed.

Lemma diagnosed_lift_bind {A B} x (r : result A) v (f : A → M World B) :
  r = Ok v → diagnosed_after x (f v) → diagnosed_after x (lift r ≫= f).
Proof. intros -> Hf st o st'. rewrite bind_run. cbn. apply Hf. Qed.

(** A call and the reading of its reply: what comes next and raises before
    a call of its own is put down to this call. *)
Lemma diagnosed_ask_bind {B} a msg t (k : string → M World B) :
  (∀ text w,
     chat_messages w a ≫= last = Some text →
     diagnosed_after (Some {| target := a; message := msg; after := w |})
       (k text)) →
  diagnosed (chat a msg t ≫= λ _, last_content a ≫= k).
Proof.
  intros Hk st o st'. rewrite bind_run. unfold chat.
  destruct (initiate_chat a msg t (user_proxy st)) as [[[]|e] w] eqn:Hchat.
  - rewrite bind_run. unfold last_content. cbn [user_proxy after_call].
    destruct (chat_messages w a) as [messages|] eqn:Hmessages.
    + destruct (last messages) as [text|] eqn:Hlast.
      * intros Hrun.
        assert (chat_messages w a ≫= last = Some text) as Htext
          by (by rewrite Hmessages).
        destruct (Hk text w Htext _ _ _ Hrun) as (calls & Hcalls & Hr).
        exists (calls ++ [{| target := a; message := msg; after := w |}])%list.
        split. { unfold added_calls in *. by rewrite Hcalls, <- app_assoc. }
        intros e' He'.
        destruct (Hr e' He') as [(y & earlier & -> & Hy)|(-> & y & [= <-] & Hy)].
        -- left. by eexists y, _.
        -- left. by eexists _, [].
      * intros [= <- <-]. eexists [_]. split; [done|]. intros e' [= <-].
        left. eexists _, []. split; [done|]. right. right. left.
        split; [done|]. cbn. rewrite Hmessages. f_equal.
        by apply last_None.
    + intros [= <- <-]. eexists [_]. split; [done|]. intros e' [= <-].
      left. eexists _, []. split; [done|]. right. by left.
  - intros [= <- <-]. eexists [_]. split; [done|]. intros e' [= <-].
    left. eexists _, []. split; [done|]. left. by exists t, (user_proxy st).
Qed.

Lemma diagnosed_ask a msg t : diagnosed (chat a msg t ≫= λ _, last_content a).
Proof.
  intros st o st' Hrun.
  refine (diagnosed_ask_bind a msg t mret _ st o st' _).
  - intros text w _. apply diagnosed_silent. intros s. by eexists _, _.
  - rewrite bind_run in *. destruct (chat a msg t st) as [[[]|e|] s1]; [|done..].
    rewrite bind_run. by destruct (last_content a s1) as [[text|e|] s2].
Qed.

(** The loop, entered with a pass to make or with a verdict at hand. *)
Lemma review_loop_diagnosed fuel max_iterations code iteration rr :
  iteration < max_iterations ∨ rr ≠ None →
  diagnosed (review_loop fuel max_iterations code iteration rr).
Proof.
  revert code iteration rr.
  induction fuel as [|fuel IH]; intros code iteration rr Hentry;
    cbn [review_loop]; destruct (iteration <? max_iterations) eqn:Hlt.
  - apply diagnosed_silent. intros s. by eexists _, _.
  - apply Z.ltb_ge in Hlt. destruct rr as [r|]; [|destruct Hentry; [lia|done]].
    apply diagnosed_silent. intros s. by eexists _, _.
  - apply diagnosed_ask_bind. intros text w Htext.
    destruct (extract_structured text fallback_verdict) as [v|] eqn:Hparse;
      [|by rewrite extract_structured_cases in Hparse].
    apply (diagnosed_lift_bind _ _ v); [done|].
    destruct (py_get v "status") as [status|e] eqn:Hstatus.
    + apply (diagnosed_lift_bind _ _ status); [done|].
      destruct (is_approved status).
      * apply diagnosed_silent. intros s. by eexists _, _.
      * apply diagnosed_after_weaken, diagnosed_bind.
        -- destruct (iteration <? max_iterations - 1).
           ++ apply diagnosed_ask.
           ++ apply diagnosed_silent. intros s. by eexists _, _.
        -- intros code'. apply IH. by right.
    + intros st o st'. rewrite bind_run. cbn. intros [= <- <-].
      exists []. split; [done|]. intros e' [= <-]. right. split; [done|].
      eexists. split; [done|].
      destruct v; try done; injection Hstatus as <-.
      all: right; right; right; split_and!; [done..|].
      all: eexists text, _; split_and!; [done|done|]; by intros [? [=]].
  - apply Z.ltb_ge in Hlt. destruct rr as [r|]; [|destruct Hentry; [lia|done]].
    apply diagnosed_silent. intros s. by eexists _, _.
Qed.

Lemma process_requirement_diagnosed requirement :
  diagnosed (process_requirement requirement).
Proof.
  assert (∀ body : M World (gmap string json),
            diagnosed body → diagnosed (try_catch body (λ e, raise e)))
    as Hreraise.
  { intros body Hbody st o st'. rewrite try_catch_reraise. apply Hbody. }
  unfold process_requirement. apply Hreraise. clear Hreraise.
  unfold _analyze_requirements, _generate_code, _review_code,
    _generate_documentation, _generate_tests, _generate_deployment.
  repeat first
    [ apply diagnosed_ask
    | apply review_loop_diagnosed; left; lia
    | apply diagnosed_ask_bind; intros ? ? _
    | apply diagnosed_silent; intros ?;
      first [ by eexists _, _
            | rewrite extract_structured_cases; by eexists _, _ ]
    | apply diagnosed_bind; [|intros ?]
    | match goal with x : (json * string)%type |- _ => destruct x end ].
Qed.

(** X17.  When [process_requirement] raises, it has made at least one call,
    and the call it made last is behind the exception: that call raised it;
    or it left no conversation with its agent, or an empty one, and the
    exception is the [KeyError] or the [IndexError] of reading the reply; or
    it was a review whose reply holds a span that decodes to something other
    than a dict, and the exception is the [AttributeError] of asking it for
    its status.  So a reply that is not JSON never makes the run fail, and
    [UnboundLocalError] and [JSONDecodeError] come out of the run only when
    a call raises them. *)
Theorem process_requirement_failure_cause requirement st e st' :
  process_requirement requirement st = (Raise e, st') →
  ∃ x earlier,
    added_calls st st' (x :: earlier)
    ∧ failure_of e x
    ∧ (e = UnboundLocalError ∨ e = JSONDecodeError →
       ∃ max_turns w,
         initiate_chat (target x) (message x) max_turns w = (Err e, after x)).
Proof.
  intros Hrun.
  destruct (process_requirement_diagnosed _ _ _ _ Hrun) as (calls & Hcalls & Hr).
  destruct (Hr e eq_refl) as [(x & earlier & -> & Hx)|(_ & y & [=] & _)].
  exists x, earlier. split; [done|]. split; [done|].
  intros He. destruct Hx as [?|[[-> _]|[[-> _]|[-> _]]]]; [done|..];
    by destruct He.
Qed.

End FailureCause.

(** * The termination test *)

Section TerminationTest.
Local Open Scope list_scope.

Lemma drop_prefix_spec (p l r : list ascii) :
  drop_prefix p l = Some r ↔ l = p ++ r.
Proof.
  revert l. induction p as [|a p IH]; intros [|b l]; cbn.
  - naive_solver.
  - naive_solver.
  - naive_solver.
  - destruct (Ascii.eqb_spec a b) as [->|Hne].
    + rewrite IH. naive_solver.
    + naive_solver.
Qed.

Lemma drop_prefix_app (p r : list ascii) : drop_prefix p (p ++ r) = Some r.
Proof. by apply drop_prefix_spec. Qed.

Lemma skip_some tokens (l r : list ascii) :
  skip tokens l = Some r → ∃ t, t ∈ tokens ∧ l = t ++ r.
Proof.
  induction tokens as [|t tokens IH]; cbn; [done|].
  destruct (drop_prefix t l) as [r'|] eqn:Hdrop.
  - intros [= ->]. exists t. split; [by left|]. by apply drop_prefix_spec.
  - intros (t' & Hin & ->)%IH. exists t'. split; [by right|done].
Qed.

(** With tokens none of which is the head of another one, the token at the
    head of a text is the one that is skipped. *)
Lemma skip_token tokens (t r : list ascii) :
  Forall (λ t, Forall (λ t', t `prefix_of` t' → t = t') tokens) tokens →
  t ∈ tokens → skip tokens (t ++ r) = Some r.
Proof.
  intros Hfree Hin.
  assert (∀ t' r', t' ∈ tokens → t ++ r = t' ++ r' → r' = r) as Hsame.
  { intros t' r' Hin' Heq.
    assert (t = t') as <-; [|by apply app_inv_head in Heq].
    rewrite Forall_forall in Hfree.
    pose proof (Hfree t Hin) as Ht. rewrite Forall_forall in Ht.
    pose proof (Hfree t' Hin') as Ht'. rewrite Forall_forall in Ht'.
    destruct (prefix_weak_total t t' (t ++ r)) as [H|H].
    - by exists r.
    - by exists r'.
    - by apply Ht.
    - symmetry. by apply Ht'. }
  clear Hfree.
  induction tokens as [|a tokens IH]; [by apply elem_of_nil in Hin|].
  cbn. destruct (drop_prefix a (t ++ r)) as [r'|] eqn:Hdrop.
  - apply drop_prefix_spec in Hdrop. f_equal. apply (Hsame a); [by left|done].
  - apply elem_of_cons in Hin as [->|Hin].
    + by rewrite drop_prefix_app in Hdrop.
    + apply IH; [done|]. intros t' r' Hin'. apply Hsame. by right.
Qed.

(** A text that starts with a byte of no token starts with no token. *)
Lemma skip_head tokens (c : ascii) (l : list ascii) :
  Forall (λ t, t ≠ [] ∧ c ∉ t) tokens → skip tokens (c :: l) = None.
Proof.
  intros Htokens. destruct (skip tokens (c :: l)) as [r|] eqn:Hskip; [|done].
  apply skip_some in Hskip as (t & Hin & Heq).
  rewrite Forall_forall in Htokens. destruct (Htokens t Hin) as [Hne Hc].
  destruct t as [|a t]; [done|]. injection Heq as ->. set_solver.
Qed.

(** What [lstrip_fuel] takes off is a sequence of tokens. *)
Lemma lstrip_fuel_parse tokens n (l : list ascii) :
  ∃ ws, Forall (λ t, t ∈ tokens) ws ∧ l = concat ws ++ lstrip_fuel tokens n l.
Proof.
  revert l. induction n as [|n IH]; intros l; cbn.
  - by exists [].
  - destruct (skip tokens l) as [r|] eqn:Hskip; [|by exists []].
    apply skip_some in Hskip as (t & Hin & ->).
    destruct (IH r) as (ws & Hws & Hr).
    exists (t :: ws). split; [by constructor|].
    cbn. rewrite <- app_assoc. by f_equal.
Qed.

(** It takes off all the tokens there are. *)
Lemma lstrip_fuel_tokens tokens n ws (r : list ascii) :
  Forall (λ t, Forall (λ t', t `prefix_of` t' → t = t') tokens) tokens →
  Forall (λ t, t ≠ []) tokens →
  Forall (λ t, t ∈ tokens) ws →
  skip tokens r = None →
  (length (concat ws ++ r) ≤ n)%nat →
  lstrip_fuel tokens n (concat ws ++ r) = r.
Proof.
  intros Hfree Hne Hws Hstop. revert n.
  induction Hws as [|t ws Hin Hws IH]; intros n Hlen.
  - cbn. destruct n; cbn; [done|]. by rewrite Hstop.
  - rewrite Forall_forall in Hne. pose proof (Hne t Hin) as Ht.
    cbn [concat] in *. rewrite <- app_assoc in *.
    rewrite length_app in Hlen.
    destruct n as [|n]; [destruct t; [done|cbn in Hlen; lia]|].
    cbn. rewrite skip_token by done. apply IH.
    destruct t; [done|cbn in Hlen; lia].
Qed.

(** A token that holds no [c] and sits at the head of [p ++ c :: rest] sits
    at the head of [p]. *)
Lemma token_before (c : ascii) (t r p rest : list ascii) :
  c ∉ t → t ++ r = p ++ c :: rest → ∃ p', p = t ++ p'.
Proof.
  revert p. induction t as [|a t IH]; intros p Hc Heq; [by exists p|].
  destruct p as [|b p]; cbn in Heq.
  - injection Heq as -> _. set_solver.
  - injection Heq as -> Heq.
    destruct (IH p) as [p' ->]; [set_solver|done|]. by exists p'.
Qed.

Lemma lstrip_fuel_keeps tokens n (p : list ascii) (c : ascii) rest :
  Forall (λ t, c ∉ t) tokens →
  ∃ p', lstrip_fuel tokens n (p ++ c :: rest) = p' ++ c :: rest.
Proof.
  intros Hc. revert p. induction n as [|n IH]; intros p; cbn; [by exists p|].
  destruct (skip tokens (p ++ c :: rest)) as [r|] eqn:Hskip; [|by exists p].
  apply skip_some in Hskip as (t & Hin & Heq).
  rewrite Forall_forall in Hc.
  destruct (token_before c t r p rest) as [p' ->]; [by apply Hc|done|].
  rewrite <- app_assoc in Heq. apply app_inv_head in Heq as <-.
  apply IH.
Qed.

Lemma reverse_concat (ws : list (list ascii)) :
  reverse (concat ws) = concat (reverse <$> reverse ws).
Proof.
  induction ws as [|t ws IH]; [done|].
  change (concat (t :: ws)) with (t ++ concat ws).
  rewrite reverse_app, reverse_cons, fmap_app, concat_app, IH.
  cbn [fmap list_fmap concat]. by rewrite app_nil_r.
Qed.

Lemma endswith_spec (l t : list ascii) : endswith l t = true ↔ ∃ k, l = k ++ t.
Proof.
  unfold endswith.
  destruct (drop_prefix (reverse t) (reverse l)) as [r|] eqn:H.
  - apply drop_prefix_spec in H. split; [intros _|done]. exists (reverse r).
    by rewrite <- (reverse_involutive l), H, reverse_app, reverse_involutive.
  - split; [done|]. intros [k ->].
    by rewrite reverse_app, drop_prefix_app in H.
Qed.

Lemma contains_spec (needle l : list ascii) :
  contains needle l = true ↔ ∃ a b, l = a ++ needle ++ b.
Proof.
  induction l as [|c l IH]; cbn.
  - destruct (drop_prefix needle []) as [r|] eqn:H.
    + apply drop_prefix_spec in H. split; [intros _|done]. by exists [], r.
    + split; [done|]. intros (a & b & Heq). destruct a; [|done].
      cbn in Heq. by rewrite Heq, drop_prefix_app in H.
  - destruct (drop_prefix needle (c :: l)) as [r|] eqn:H.
    + apply drop_prefix_spec in H. split; [intros _|done]. by exists [], r.
    + rewrite IH. split.
      * intros (a & b & ->). by exists (c :: a), b.
      * intros (a & b & Heq). destruct a as [|c' a].
        -- cbn in Heq. by rewrite Heq, drop_prefix_app in H.
        -- injection Heq as -> ->. by exists a, b.
Qed.

Lemma list_ascii_of_string_app (a b : string) :
  list_ascii_of_string (a +:+ b)
  = list_ascii_of_string a ++ list_ascii_of_string b.
Proof.
  induction a as [|c a IH]; [done|].
  change (String c a +:+ b) with (String c (a +:+ b)). cbn. by rewrite IH.
Qed.

Lemma text_of_bytes (content : string) (a t b : list ascii) :
  list_ascii_of_string content = a ++ t ++ b →
  content
  = string_of_list_ascii a +:+ string_of_list_ascii t +:+ string_of_list_ascii b.
Proof.
  intros Heq. rewrite <- (string_of_list_ascii_of_string content).
  rewrite <- (string_of_list_ascii_of_string (_ +:+ _)). f_equal.
  by rewrite !list_ascii_of_string_app, !list_ascii_of_string_of_list_ascii.
Qed.

(** The tables of the white space. *)
Lemma whitespace_tokens :
  Forall (λ t, Forall (λ t', t `prefix_of` t' → t = t') whitespace) whitespace
  ∧ Forall (λ t, "T"%char ∉ t) whitespace
  ∧ Forall (λ t, Forall (λ t', t `prefix_of` t' → t = t')
                   (reverse <$> whitespace)) (reverse <$> whitespace)
  ∧ Forall (λ t, t ≠ []) (reverse <$> whitespace)
  ∧ Forall (λ t, t ≠ [] ∧ "E"%char ∉ t) (reverse <$> whitespace).
Proof. split_and!; apply (bool_decide_unpack _); by vm_compute. Qed.

(** [strip] takes white space off both ends, and nothing else. *)
Lemma strip_parse (l : list ascii) :
  ∃ ws1 ws2,
    Forall (λ t, t ∈ whitespace) ws1 ∧ Forall (λ t, t ∈ whitespace) ws2
    ∧ l = concat ws1 ++ strip l ++ concat ws2.
Proof.
  unfold strip, lstrip, rstrip.
  destruct (lstrip_fuel_parse whitespace (length l) l) as (ws1 & Hws1 & Hl).
  set (m := lstrip_fuel whitespace (length l) l) in *.
  destruct (lstrip_fuel_parse (reverse <$> whitespace) (length m) (reverse m))
    as (wsr & Hwsr & Hm).
  exists ws1, (reverse <$> reverse wsr). split; [done|]. split.
  - apply Forall_forall. intros t (t' & -> & Hin)%list_elem_of_fmap.
    rewrite elem_of_reverse in Hin. rewrite Forall_forall in Hwsr.
    apply Hwsr, list_elem_of_fmap in Hin as (t0 & -> & Hin).
    by rewrite reverse_involutive.
  - rewrite Hl at 1. f_equal.
    rewrite <- (reverse_involutive m) at 1. rewrite Hm at 1.
    by rewrite reverse_app, reverse_concat.
Qed.

(** A text that ends with TERMINATE and white space is stripped to a text
    that ends with TERMINATE. *)
Lemma strip_keeps_ending (pre : list ascii) (ws : list (list ascii)) :
  Forall (λ t, t ∈ whitespace) ws →
  ∃ pre',
    strip (pre ++ list_ascii_of_string "TERMINATE" ++ concat ws)
    = pre' ++ list_ascii_of_string "TERMINATE".
Proof.
  intros Hws.
  destruct whitespace_tokens as (_ & Hletter & Hfree & Hne & Hhead).
  unfold strip, lstrip.
  change (list_ascii_of_string "TERMINATE")
    with ("T"%char :: list_ascii_of_string "ERMINATE").
  cbn [app].
  destruct (lstrip_fuel_keeps whitespace
              (length (pre ++ "T"%char :: list_ascii_of_string "ERMINATE"
                         ++ concat ws))
              pre "T"%char (list_ascii_of_string "ERMINATE" ++ concat ws)
              Hletter) as [pre' ->].
  exists pre'. unfold rstrip.
  set (l := pre' ++ "T"%char :: list_ascii_of_string "ERMINATE" ++ concat ws).
  assert (reverse l
          = concat (reverse <$> reverse ws)
            ++ "E"%char :: reverse (pre' ++ list_ascii_of_string "TERMINAT"))
    as Hl.
  { unfold l.
    change ("T"%char :: list_ascii_of_string "ERMINATE" ++ concat ws)
      with ((list_ascii_of_string "TERMINAT" ++ ["E"%char]) ++ concat ws).
    rewrite !app_assoc, reverse_app, reverse_concat. f_equal.
    by rewrite reverse_app. }
  rewrite <- (length_reverse l), Hl.
  rewrite lstrip_fuel_tokens; [| done | done | | by apply skip_head | done].
  - change ("E"%char :: reverse (pre' ++ list_ascii_of_string "TERMINAT"))
      with (reverse ["E"%char]
            ++ reverse (pre' ++ list_ascii_of_string "TERMINAT")).
    rewrite <- reverse_app, reverse_involutive, <- app_assoc. done.
  - apply Forall_forall.
    intros t (t' & -> & Hin)%list_elem_of_fmap.
    rewrite elem_of_reverse in Hin.
    apply list_elem_of_fmap. exists t'. split; [done|].
    rewrite Forall_forall in Hws. by apply Hws.
Qed.

(** X16.  [is_termination_msg] raises [AttributeError] when the content of
    the message is there and is no text, and returns otherwise, with the
    empty text for a content that is not there.  It returns [True] exactly
    when the text ends with TERMINATE followed by nothing but white space,
    or holds exitcode anywhere. *)
Theorem is_termination_msg_spec (x : list (string * json)) :
  match default (JStr "") (dict_get "content" x) with
  | JStr content =>
      ∃ b,
        is_termination_msg x = Ok b
        ∧ (b = true ↔
           (∃ pre ws, content = pre +:+ "TERMINATE" +:+ ws ∧ blank ws)
           ∨ ∃ pre post, content = pre +:+ "exitcode" +:+ post)
  | _ => is_termination_msg x = Err AttributeError
  end.
Proof.
  unfold is_termination_msg.
  destruct (default (JStr "") (dict_get "content" x)) as [| | | |content| |];
    try done.
  eexists. split; [done|].
  rewrite orb_true_iff, endswith_spec, contains_spec. split.
  - intros [[k Hk]|(a & b & Hc)].
    + left.
      destruct (strip_parse (list_ascii_of_string content))
        as (ws1 & ws2 & _ & Hws2 & Heq).
      rewrite Hk, <- !app_assoc, app_assoc in Heq.
      apply text_of_bytes in Heq. rewrite string_of_list_ascii_of_string in Heq.
      eexists _, _. split; [exact Heq|].
      exists ws2. split; [done|]. by rewrite list_ascii_of_string_of_list_ascii.
    + right. apply text_of_bytes in Hc.
      rewrite string_of_list_ascii_of_string in Hc. by eexists _, _.
  - intros [(pre & ws & -> & tokens & Htokens & Hws)|(pre & post & ->)].
    + left. rewrite !list_ascii_of_string_app, Hws.
      destruct (strip_keeps_ending (list_ascii_of_string pre) tokens Htokens)
        as [pre' ->].
      by exists pre'.
    + right. rewrite !list_ascii_of_string_app. by eexists _, _.
Qed.

End TerminationTest.

(** * Runs of the further properties *)

Lemma test_results_typed : texts_are_texts Runs.test_results.
Proof.
  split.
  - intros key v Hin Hv.
    repeat (apply elem_of_cons in Hin as [->|Hin]);
      try (by apply elem_of_nil in Hin);
      vm_compute in Hv; simplify_eq; by eexists.
  - intros d Hd. vm_compute in Hd. simplify_eq. by eexists.
Qed.

Lemma no_script_typed : texts_are_texts Runs.no_script.
Proof.
  split.
  - intros key v Hin Hv.
    repeat (apply elem_of_cons in Hin as [->|Hin]);
      try (by apply elem_of_nil in Hin);
      vm_compute in Hv; simplify_eq.
  - intros d Hd. vm_compute in Hd. simplify_eq. by eexists.
Qed.

Lemma bare_script_typed : texts_are_texts Runs.bare_script.
Proof.
  split.
  - intros key v Hin Hv.
    repeat (apply elem_of_cons in Hin as [->|Hin]);
      try (by apply elem_of_nil in Hin);
      vm_compute in Hv; simplify_eq.
  - intros d Hd. vm_compute in Hd. simplify_eq. by eexists.
Qed.

(** The Reviewer answers with the empty object, then approves the revision:
    the second review was sent the revised code. *)
Lemma review_code_verdict_matches_code_witness :
  ∃ last_review earlier text,
    added_calls (Scenario.fresh Scenario.empty_then_approved)
      (snd (_review_code "def test(): pass" (JObj []) 3
              (Scenario.fresh Scenario.empty_then_approved)))
      (last_review :: earlier)
    ∧ target last_review = CodeReviewer
    ∧ message last_review = review_message "improved code"
    ∧ response last_review = Some text
    ∧ extract_structured text fallback_verdict
      = Ok (JObj [("status", JStr "approved"); ("score", JInt 9)])
    ∧ match earlier with
      | [] => "improved code" = "def test(): pass"
      | revision :: _ =>
          target revision = SoftwareDeveloper
          ∧ response revision = Some "improved code"
      end.
Proof.
  apply (review_code_verdict_matches_code (Ext := Scenario.scripted)
           "def test(): pass" (JObj []) 3
           (Scenario.fresh Scenario.empty_then_approved)
           (JObj [("status", JStr "approved"); ("score", JInt 9)])
           "improved code").
  vm_compute. reflexivity.
Defined.

(** Two rejections on a budget of two: the loop ends on the budget. *)
Lemma review_code_returns_approved_or_exhausted_witness :
  ∃ calls members,
    added_calls (Scenario.fresh Scenario.rejected_twice)
      (snd (_review_code "def test(): pass" (JObj []) 2
              (Scenario.fresh Scenario.rejected_twice)))
      calls
    ∧ JObj [("status", JStr "needs_revision"); ("score", JInt 5)]
      = JObj members
    ∧ calls_to CodeReviewer calls = S (calls_to SoftwareDeveloper calls)
    ∧ (dict_get "status" members = Some (JStr "approved")
       ∨ Z.of_nat (calls_to CodeReviewer calls) = 2).
Proof.
  apply (review_code_returns_approved_or_exhausted (Ext := Scenario.scripted)
           "def test(): pass" (JObj []) 2
           (Scenario.fresh Scenario.rejected_twice)
           (JObj [("status", JStr "needs_revision"); ("score", JInt 5)])
           "improved code").
  vm_compute. reflexivity.
Defined.

(** The calculator run behind a patched [initiate_chat]. *)
Lemma process_requirement_final_artifacts_witness :
  ∃ x_dep x_tst x_doc x_rev earlier,
    added_calls Scenario.patched
      (snd (process_requirement (Ext := Scenario.canned Scenario.cooperative)
              "Create a calculator application" Scenario.patched))
      (x_dep :: x_tst :: x_doc :: x_rev :: earlier)
    ∧ message x_rev = review_message "def add(a,b): return a+b"
    ∧ message x_doc = documentation_message "def add(a,b): return a+b"
    ∧ message x_tst = tests_message "def add(a,b): return a+b"
    ∧ target x_dep = DevOpsEngineer.
Proof.
  destruct (process_requirement_final_artifacts
              (Ext := Scenario.canned Scenario.cooperative)
              "Create a calculator application" Scenario.patched
              (results
                 (snd (process_requirement
                         (Ext := Scenario.canned Scenario.cooperative)
                         "Create a calculator application" Scenario.patched)))
              (snd (process_requirement
                      (Ext := Scenario.canned Scenario.cooperative)
                      "Create a calculator application" Scenario.patched)))
    as (final & review & doc & tests & script & x_dep & x_tst & x_doc & x_rev
        & text & earlier & Hcalls & Hfinal & _ & _ & _ & _ & _ & Hrev & _ & _
        & _ & Hdoc & _ & _ & Htst & _ & Hdep & _).
  - vm_compute. reflexivity.
  - vm_compute in Hfinal. injection Hfinal as <-.
    exists x_dep, x_tst, x_doc, x_rev, earlier.
    split; [exact Hcalls|]. split; [exact Hrev|]. split; [exact Hdoc|].
    split; [exact Htst|exact Hdep].
Defined.

Lemma process_requirement_first_artifacts_witness :
  ∃ x_an x_gen later,
    added_calls Scenario.patched
      (snd (process_requirement (Ext := Scenario.canned Scenario.cooperative)
              "Create a calculator application" Scenario.patched))
      (later ++ [x_gen; x_an])%list
    ∧ message x_an = analyze_message "Create a calculator application"
    ∧ target x_gen = SoftwareDeveloper.
Proof.
  destruct (process_requirement_first_artifacts
              (Ext := Scenario.canned Scenario.cooperative)
              "Create a calculator application" Scenario.patched
              (results
                 (snd (process_requirement
                         (Ext := Scenario.canned Scenario.cooperative)
                         "Create a calculator application" Scenario.patched)))
              (snd (process_requirement
                      (Ext := Scenario.canned Scenario.cooperative)
                      "Create a calculator application" Scenario.patched)))
    as (_ & _ & text & req & code & x_an & x_gen & later & Hcalls & _ & Han & _
        & _ & _ & Hgen & _).
  - vm_compute. reflexivity.
  - exists x_an, x_gen, later.
    split; [exact Hcalls|]. split; [exact Han|exact Hgen].
Defined.

(** The mapping of the unit test of [save_results], saved to an empty
    disk. *)
Lemma save_results_contents_witness :
  ∃ disk',
    save_results (Ext := Scenario.canned Scenario.cooperative) Runs.dump_all
      "output" "2024-01-01 00:00:00" (Runs.holding Runs.test_results) ∅
    = (Ok (), disk')
    ∧ disk' !! "output/generated_code.py" = Some "def test(): pass"
    ∧ disk' !! "output/documentation.md" = Some "# Docs"
    ∧ disk' !! "output/test_generated_code.py" = Some "import unittest"
    ∧ disk' !! "output/deploy.sh" = Some "#!/bin/bash".
Proof.
  destruct (save_results_contents
              (Ext := Scenario.canned Scenario.cooperative) Runs.dump_all
              "output" "2024-01-01 00:00:00" (Runs.holding Runs.test_results)
              ∅ test_results_typed)
    as (disk' & Hrun & _ & _ & _ & _ & _ & Hfinal & Hdoc & Htests & Hdeploy & _).
  exists disk'. split; [exact Hrun|].
  split; [apply Hfinal; reflexivity|].
  split; [apply Hdoc; reflexivity|].
  split; [apply Htests; reflexivity|].
  apply (Hdeploy (JObj [("script", JStr "#!/bin/bash")])). reflexivity.
Defined.

(** A file of an earlier save stays when the mapping has no code; a file
    elsewhere is not created. *)
Lemma save_results_leaves_other_files_witness :
  snd (save_results (Ext := Scenario.canned Scenario.cooperative) Runs.dump_all
         "output" "2024-01-01 00:00:00" (Runs.holding Runs.test_results)
         Runs.old_disk)
    !! "output/initial_code.py" = Some "old code"
  ∧ snd (save_results (Ext := Scenario.canned Scenario.cooperative)
           Runs.dump_all "output" "2024-01-01 00:00:00"
           (Runs.holding Runs.test_results) Runs.old_disk)
      !! "notes/README.md" = None.
Proof.
  destruct (save_results_leaves_other_files
              (Ext := Scenario.canned Scenario.cooperative) Runs.dump_all
              "output" "2024-01-01 00:00:00" (Runs.holding Runs.test_results)
              Runs.old_disk) as [Hframe Hstale].
  split.
  - apply (Hstale "code" "initial_code.py").
    + apply list_elem_of_further, list_elem_of_here.
    + reflexivity.
  - apply (Hframe "notes/README.md").
    apply (bool_decide_unpack _). vm_compute. exact I.
Defined.

(** A mapping whose code is a dict: the write of initial_code.py raises. *)
Lemma save_results_failure_witness :
  ¬ texts_are_texts Runs.code_not_text
  ∧ snd (save_results (Ext := Scenario.canned Scenario.cooperative)
           Runs.dump_all "output" "2024-01-01 00:00:00"
           (Runs.holding Runs.code_not_text) ∅)
      !! "output/full_results.json" = None
  ∧ snd (save_results (Ext := Scenario.canned Scenario.cooperative)
           Runs.dump_all "output" "2024-01-01 00:00:00"
           (Runs.holding Runs.code_not_text) ∅)
      !! "output/README.md" = None.
Proof.
  destruct (save_results_failure
              (Ext := Scenario.canned Scenario.cooperative) Runs.dump_all
              "output" "2024-01-01 00:00:00" (Runs.holding Runs.code_not_text)
              ∅ (OtherError "TypeError")
              (snd (save_results (Ext := Scenario.canned Scenario.cooperative)
                      Runs.dump_all "output" "2024-01-01 00:00:00"
                      (Runs.holding Runs.code_not_text) ∅)))
    as (_ & Hnot & Hfull & Hreadme).
  - vm_compute. reflexivity.
  - split; [exact Hnot|]. split; [exact Hfull|exact Hreadme].
Defined.

(** A deployment entry without a script, and one that is a bare text. *)
Lemma save_results_deployment_forms_witness :
  snd (save_results (Ext := Scenario.canned Scenario.cooperative) Runs.dump_all
         "output" "2024-01-01 00:00:00" (Runs.holding Runs.no_script) ∅)
    !! "output/deploy.sh" = Some ""
  ∧ snd (save_results (Ext := Scenario.canned Scenario.cooperative)
           Runs.dump_all "output" "2024-01-01 00:00:00"
           (Runs.holding Runs.bare_script) ∅)
      !! "output/deploy.sh" = Some "#!/bin/bash"
  ∧ snd (save_results (Ext := Scenario.canned Scenario.cooperative)
           Runs.dump_all "output" "2024-01-01 00:00:00"
           (Runs.holding Runs.bare_script) ∅)
      !! "output/deployment_info.json" = None.
Proof.
  destruct (save_results_deployment_forms
              (Ext := Scenario.canned Scenario.cooperative) Runs.dump_all
              "output" "2024-01-01 00:00:00" (Runs.holding Runs.no_script)
              ∅ no_script_typed) as [Hdict _].
  destruct (save_results_deployment_forms
              (Ext := Scenario.canned Scenario.cooperative) Runs.dump_all
              "output" "2024-01-01 00:00:00" (Runs.holding Runs.bare_script)
              ∅ bare_script_typed) as [_ Htext].
  split.
  - apply (Hdict [("timestamp", JStr "2024-01-01T00:00:00")]); reflexivity.
  - apply (Htext "#!/bin/bash"). reflexivity.
Defined.

(** The mapping of the calculator run holds texts where texts are
    written. *)
Lemma calculator_results_typed :
  texts_are_texts
    (results
       (snd (process_requirement (Ext := Scenario.canned Scenario.cooperative)
               "Create a calculator application" Scenario.patched))).
Proof.
  split.
  - intros key v Hin Hv.
    repeat (apply elem_of_cons in Hin as [->|Hin]);
      try (by apply elem_of_nil in Hin);
      vm_compute in Hv; simplify_eq; by eexists.
  - intros d Hd. vm_compute in Hd. simplify_eq. by eexists.
Qed.

(** The calculator run, then [save_results] on an empty disk. *)
Lemma save_results_after_run_witness :
  ∃ disk',
    save_results (Ext := Scenario.canned Scenario.cooperative) Runs.dump_all
      "output" "2024-01-01 00:00:00"
      (snd (process_requirement (Ext := Scenario.canned Scenario.cooperative)
              "Create a calculator application" Scenario.patched)) ∅
    = (Ok (), disk')
    ∧ disk' !! "output/initial_code.py" = Some "def add(a,b): return a+b"
    ∧ disk' !! "output/generated_code.py" = Some "def add(a,b): return a+b"
    ∧ disk' !! "output/documentation.md" = Some "# Calculator Documentation"
    ∧ disk' !! "output/deploy.sh" = Some "#!/bin/bash".
Proof.
  destruct (save_results_after_run
              (Ext := Scenario.canned Scenario.cooperative) Runs.dump_all
              "Create a calculator application" Scenario.patched
              (results
                 (snd (process_requirement
                         (Ext := Scenario.canned Scenario.cooperative)
                         "Create a calculator application" Scenario.patched)))
              (snd (process_requirement
                      (Ext := Scenario.canned Scenario.cooperative)
                      "Create a calculator application" Scenario.patched))
              "output" "2024-01-01 00:00:00" ∅)
    as (disk' & code & final & doc & tests & deployment & script & Hsave
        & Hcode & Hfinal & Hdoc & _ & Hdeploy & Hscript & Fcode & Ffinal
        & Fdoc & _ & Fscript & _).
  - vm_compute. reflexivity.
  - exact calculator_results_typed.
  - vm_compute in Hcode, Hfinal, Hdoc, Hdeploy.
    injection Hcode as <-. injection Hfinal as <-. injection Hdoc as <-.
    injection Hdeploy as <-. vm_compute in Hscript. injection Hscript as <-.
    exists disk'. split; [exact Hsave|]. split; [exact Fcode|].
    split; [exact Ffinal|]. split; [exact Fdoc|exact Fscript].
Defined.



(** A second run that fails at the documentation: the page shows the new
    code next to the old documentation. *)
Lemma page_failure_shows_partial_results_witness :
  ∃ s',
    App.process_requirement Runs.noon Runs.noon_dated Runs.exn_name
      Runs.traceback Runs.dump_all "Create a calculator application"
      Runs.page_with_results ∅
    = (Return (), s', ∅)
    ∧ App.displayed s' ≫= lookup "code"
      = Some (JStr "def add(a,b): return a+b")
    ∧ App.displayed s' ≫= lookup "documentation"
      = Some (JStr "# Old documentation").
Proof.
  destruct (page_failure_shows_partial_results
              (Ext := Scenario.scripted)
              Runs.noon Runs.noon_dated Runs.exn_name Runs.traceback
              Runs.dump_all "Create a calculator application"
              Runs.page_with_results
              {| user_proxy := user_proxy (Scenario.fresh Scenario.writer_down);
                 results :=
                   <["code" := JStr "def old(): pass"]>
                     (<["documentation" := JStr "# Old documentation"]> ∅);
                 invocations := [] |}
              (OtherError "TransportError")
              (snd (process_requirement
                      "Create a calculator application"
                      {| user_proxy :=
                           user_proxy (Scenario.fresh Scenario.writer_down);
                         results :=
                           <["code" := JStr "def old(): pass"]>
                             (<["documentation" :=
                                  JStr "# Old documentation"]> ∅);
                         invocations := [] |}))
              ∅ eq_refl)
    as (s' & Hrun & _ & Hshown).
  - vm_compute. reflexivity.
  - exists s'. split; [exact Hrun|]. rewrite Hshown.
    split; vm_compute; reflexivity.
Defined.

(** The run with the Technical Writer out of reach: the call behind the
    exception is the one to the Writer. *)
Lemma process_requirement_failure_cause_witness :
  ∃ x earlier,
    added_calls (Scenario.fresh Scenario.writer_down)
      (snd (process_requirement "Create a calculator application"
              (Scenario.fresh Scenario.writer_down)))
      (x :: earlier)
    ∧ target x = TechnicalWriter
    ∧ failure_of (OtherError "TransportError") x.
Proof.
  destruct (process_requirement_failure_cause (Ext := Scenario.scripted)
              "Create a calculator application"
              (Scenario.fresh Scenario.writer_down)
              (OtherError "TransportError")
              (snd (process_requirement "Create a calculator application"
                      (Scenario.fresh Scenario.writer_down))))
    as (x & earlier & Hcalls & Hx & _).
  - vm_compute. reflexivity.
  - exists x, earlier. split; [exact Hcalls|]. split; [|exact Hx].
    unfold added_calls in Hcalls. vm_compute in Hcalls.
    injection Hcalls as <- _. reflexivity.
Defined.

(** The test on some messages: a closing TERMINATE with a line break after
    it, a TERMINATE with a full stop after it, the report of an execution,
    a message without content and a message whose content is [None]. *)
Example termination_runs :
  is_termination_msg
    [("content", JStr ("The code is complete. TERMINATE" +:+ nl))] = Ok true
  ∧ is_termination_msg [("content", JStr "TERMINATE.")] = Ok false
  ∧ is_termination_msg
      [("content", JStr "exitcode: 0 (execution succeeded)")] = Ok true
  ∧ is_termination_msg [("role", JStr "user")] = Ok false
  ∧ is_termination_msg [("content", JNull)] = Err AttributeError.
Proof. split_and!; vm_compute; reflexivity. Qed.
